(** * Comfort monitoring back end: scoring, alerts, ingestion, evolution

    A shallow embedding of [core/utils.py] and [core/services.py].

    Numbers.  The five sensor fields and every score are Python floats.
    They are modelled by the rational number they denote ([Q]), with exact
    arithmetic: rounding of binary64 operations is not part of this model.
    The integer constants of the threshold table stay integers ([Z]) and
    are injected where Python promotes them to float.  The [b64_]
    definitions re-run the scoring functions on IEEE doubles at the
    literals that matter.

    Time.  A timestamp is a number of seconds on the UTC time line ([Z]);
    truncation to the hour or the day is truncation to a multiple of 3600
    or 86400 seconds. *)

From Corelib Require Import PrimFloat.
From Stdlib Require Import QArith Qminmax Qabs Lqa.
From stdpp Require Import gmap strings list sorting.

Set Warnings "-inexact-float".

Open Scope Q_scope.

(** ** Python comparisons and [max] on floats *)

Definition Qltb (x y : Q) : bool := negb (Qle_bool y x).

(** [max(a, b)]: Python returns the first argument unless the second is
    strictly larger. *)
Definition py_max (a b : Q) : Q := if Qltb a b then b else a.

(** ** core/utils.py *)

(** The keys of [THRESHOLDS], [WEIGHTS] and of the [params] dictionary;
    also the values of [Alerte.TYPE_CHOICES]. *)
Inductive Param := temperature | humidite | air | bruit | luminosite.

#[global] Instance Param_eq_dec : EqDecision Param.
Proof. solve_decision. Defined.

(** One entry of [THRESHOLDS]: a dictionary that may hold the keys ['min']
    and ['max'].  ['min' in thresh] is [is_Some (th_min thresh)]. *)
Record Thresh := { th_min : option Z; th_max : option Z }.

Definition THRESHOLDS (param : Param) : Thresh :=
  match param with
  | temperature => {| th_min := Some 22%Z; th_max := Some 26%Z |}
  | humidite => {| th_min := Some 40%Z; th_max := Some 60%Z |}
  | bruit => {| th_min := None; th_max := Some 60%Z |}
  | luminosite => {| th_min := Some 300%Z; th_max := Some 500%Z |}
  | air => {| th_min := None; th_max := Some 1000%Z |}
  end.

Definition WEIGHTS (param : Param) : Q :=
  match param with
  | temperature => 0.25
  | humidite => 0.20
  | air => 0.25
  | bruit => 0.20
  | luminosite => 0.10
  end.

Definition calculate_parameter_score (value : Q) (param : Param) : Q :=
  let thresh := THRESHOLDS param in
  match th_min thresh, th_max thresh with
  | Some mn, Some mx =>
      if Qle_bool (inject_Z mn) value && Qle_bool value (inject_Z mx) then 100
      else
        let deviation :=
          if Qltb value (inject_Z mn) then inject_Z mn - value
          else value - inject_Z mx in
        py_max 0 (100 - deviation * 10)
  | None, Some mx =>
      if Qle_bool value (inject_Z mx) then 100
      else
        let deviation := value - inject_Z mx in
        py_max 0 (100 - deviation * 10)
  | Some mn, None =>
      if Qle_bool (inject_Z mn) value then 100
      else
        let deviation := inject_Z mn - value in
        py_max 0 (100 - deviation * 10)
  | None, None => 0
  end.

(** The [scores] dictionary built by [collect_measurement]: one float per
    parameter key. *)
Record Scores := {
  sc_temperature : Q;
  sc_humidite : Q;
  sc_air : Q;
  sc_bruit : Q;
  sc_luminosite : Q
}.

Definition calculate_global_score (scores : Scores) : Q :=
  sc_temperature scores * WEIGHTS temperature +
  sc_humidite scores * WEIGHTS humidite +
  sc_air scores * WEIGHTS air +
  sc_bruit scores * WEIGHTS bruit +
  sc_luminosite scores * WEIGHTS luminosite.

(** The values of [IndiceConfort.STATUT_CHOICES]. *)
Module Statut.
Inductive t := comfort | warning | danger.
End Statut.

(** The values of [Alerte.NIVEAU_CHOICES]. *)
Module Niveau.
Inductive t := warning | danger.
End Niveau.

Definition determine_status (global_score : Q) : Statut.t :=
  if Qle_bool 70 global_score then Statut.comfort
  else if Qle_bool 40 global_score then Statut.warning
  else Statut.danger.

(** A saved [Mesure] row (core/models.py). *)
Record Mesure := {
  mesure_id : Z;
  mesure_salle : Z;
  mesure_temperature : Q;
  mesure_humidite : Q;
  mesure_air : Q;
  mesure_bruit : Q;
  mesure_luminosite : Q;
  mesure_timestamp : Z
}.

(** The text [f"Valeur {param} ({value}) hors seuil ({seuil})"], kept as
    the template's three arguments. *)
Inductive Message := hors_seuil (param : Param) (value : Q) (seuil : Z).

(** One dictionary of the list returned by [generate_alerts]. *)
Record AlertData := {
  alert_type : Param;
  alert_valeur : Q;
  alert_seuil : Z;
  alert_niveau : Niveau.t;
  alert_message : Message
}.

(** The body of the loop up to [if is_out]: [None] stands for
    [is_out = False] (with [niveau] and [seuil] still [None]),
    [Some (seuil, niveau)] for [is_out = True]. *)
Definition check_threshold (thresh : Thresh) (value : Q) : option (Z * Niveau.t) :=
  match th_min thresh, th_max thresh with
  | Some mn, Some mx =>
      if Qltb value (inject_Z mn) then
        Some (mn, if Qle_bool (inject_Z (mn - 5)) value
                  then Niveau.warning else Niveau.danger)
      else if Qltb (inject_Z mx) value then
        Some (mx, if Qle_bool value (inject_Z (mx + 5))
                  then Niveau.warning else Niveau.danger)
      else None
  | None, Some mx =>
      if Qltb (inject_Z mx) value then
        Some (mx, if Qle_bool value (inject_Z (mx + 10))
                  then Niveau.warning else Niveau.danger)
      else None
  | Some mn, None =>
      if Qltb value (inject_Z mn) then
        Some (mn, if Qle_bool (inject_Z (mn - 10)) value
                  then Niveau.warning else Niveau.danger)
      else None
  | None, None => None
  end.

(** The [params] dictionary, in insertion order (the order in which
    [params.items()] yields it). *)
Definition params_items (mesure : Mesure) : list (Param * Q) :=
  [ (temperature, mesure_temperature mesure);
    (humidite, mesure_humidite mesure);
    (air, mesure_air mesure);
    (bruit, mesure_bruit mesure);
    (luminosite, mesure_luminosite mesure) ].

(** One iteration of the [for] loop: [alerts] is the list built so far. *)
Definition alert_step (alerts : list AlertData) (item : Param * Q) : list AlertData :=
  let '(param, value) := item in
  match check_threshold (THRESHOLDS param) value with
  | Some (seuil, niveau) =>
      alerts ++ [ {| alert_type := param;
                     alert_valeur := value;
                     alert_seuil := seuil;
                     alert_niveau := niveau;
                     alert_message := hors_seuil param value seuil |} ]
  | None => alerts
  end.

(** [scores] is a parameter of the source function and is never read. *)
Definition generate_alerts (mesure : Mesure) (scores : Scores) : list AlertData :=
  fold_left alert_step (params_items mesure) [].

(** ** core/models.py: the tables *)

Record Salle := {
  salle_id : Z;
  salle_nom : string;
  salle_description : string
}.

(** [IndiceConfort.mesure] is the one-to-one key to [Mesure]. *)
Record IndiceConfort := {
  indice_id : Z;
  indice_mesure : Z;
  score_global : Q;
  statut : Statut.t;
  score_temperature : Q;
  score_humidite : Q;
  score_air : Q;
  score_bruit : Q;
  score_luminosite : Q;
  indice_timestamp : Z
}.

(** [Alerte.seuil] is a [FloatField]: the integer threshold is stored as a
    float.  [Alerte.timestamp] has [default=timezone.now]. *)
Record Alerte := {
  alerte_id : Z;
  alerte_mesure : Z;
  alerte_type : Param;
  alerte_valeur : Q;
  alerte_seuil : Q;
  alerte_niveau : Niveau.t;
  alerte_message : Message;
  alerte_timestamp : Z
}.

(** The data store: each table in insertion order. *)
Record DB := {
  salles : list Salle;
  mesures : list Mesure;
  indices : list IndiceConfort;
  alertes : list Alerte
}.

(** Primary keys are handed out in increasing order. *)
Definition fresh_id (ids : list Z) : Z := (1 + foldr Z.max 0 ids)%Z.

(** ** core/services.py: [collect_measurement] *)

(** Values found in the request dictionary and in [mesure_data]. *)
Inductive PyVal :=
  | PyNone
  | PyBool (b : bool)
  | PyInt (n : Z)
  | PyFloat (q : Q)
  | PyStr (s : string)
  | PyDateTime (t : Z).

(** Python truth value, as tested by [if not salle_id]. *)
Definition truthy (v : PyVal) : bool :=
  match v with
  | PyNone => false
  | PyBool b => b
  | PyInt n => negb (n =? 0)%Z
  | PyFloat q => negb (Qeq_bool q 0)
  | PyStr s => negb (String.eqb s "")
  | PyDateTime _ => true
  end.

Inductive Error :=
  | ValueError (msg : string)
  | Http404
  | ValidationError
  | DatabaseError.

Record Response := {
  resp_mesure : Mesure;
  resp_indice_confort : IndiceConfort;
  resp_alertes : list Alerte
}.

(** Code that reads and writes the store and may raise.  The store that
    comes back with an exception is the store as the writes made so far
    have left it. *)
Definition Tx (A : Type) : Type := DB -> (Error + A) * DB.

Definition tx_ret {A} (a : A) : Tx A := fun db => (inr a, db).

Definition tx_raise {A} (e : Error) : Tx A := fun db => (inl e, db).

Definition tx_bind {A B} (m : Tx A) (k : A -> Tx B) : Tx B :=
  fun db =>
    match m db with
    | (inl e, db') => (inl e, db')
    | (inr a, db') => k a db'
    end.

Definition tx_get : Tx DB := fun db => (inr db, db).

Notation "'let*' x ':=' m 'in' k" := (tx_bind m (fun x => k))
  (at level 10, x name, m at level 100, k at level 200, only parsing).

(** [with transaction.atomic(): body]: when the body raises, the store is
    rolled back to what it was on entry and the exception propagates. *)
Definition atomic {A} (body : Tx A) : Tx A :=
  fun db =>
    match body db with
    | (inl e, _) => (inl e, db)
    | (inr a, db') => (inr a, db')
    end.

(** The fields of [mesure_data] once [MesureSerializer] has validated
    them. *)
Record MesureFields := {
  f_salle : Z;
  f_temperature : Q;
  f_humidite : Q;
  f_air : Q;
  f_bruit : Q;
  f_luminosite : Q;
  f_timestamp : Z
}.

(** [serializer.save()] for each model.  [fault] tells whether the storage
    layer raises on this write. *)
Definition mesure_row (id : Z) (f : MesureFields) : Mesure :=
  {| mesure_id := id;
     mesure_salle := f_salle f;
     mesure_temperature := f_temperature f;
     mesure_humidite := f_humidite f;
     mesure_air := f_air f;
     mesure_bruit := f_bruit f;
     mesure_luminosite := f_luminosite f;
     mesure_timestamp := f_timestamp f |}.

Definition save_mesure (fault : bool) (f : MesureFields) : Tx Mesure :=
  fun db =>
    if fault then (inl DatabaseError, db)
    else
      let mesure := mesure_row (fresh_id (mesure_id <$> mesures db)) f in
      (inr mesure, {| salles := salles db;
                      mesures := mesures db ++ [mesure];
                      indices := indices db;
                      alertes := alertes db |}).

(** [indice_data] of the source, and its saved row. *)
Definition indice_data (mesure : Mesure) (scores : Scores) (global_score : Q)
    (st : Statut.t) (id : Z) : IndiceConfort :=
  {| indice_id := id;
     indice_mesure := mesure_id mesure;
     score_global := global_score;
     statut := st;
     score_temperature := sc_temperature scores;
     score_humidite := sc_humidite scores;
     score_air := sc_air scores;
     score_bruit := sc_bruit scores;
     score_luminosite := sc_luminosite scores;
     indice_timestamp := mesure_timestamp mesure |}.

(** [IndiceConfortSerializer.is_valid()]: the one-to-one key must name a
    stored [Mesure] that has no [IndiceConfort] yet; the status is one of
    the choices and the scores are floats by their types. *)
Definition indice_is_valid (db : DB) (mesure : Z) : bool :=
  bool_decide (mesure ∈ mesure_id <$> mesures db) &&
  bool_decide (mesure ∉ indice_mesure <$> indices db).

Definition save_indice (fault : bool) (mk : Z -> IndiceConfort) : Tx IndiceConfort :=
  fun db =>
    if fault then (inl DatabaseError, db)
    else
      let indice := mk (fresh_id (indice_id <$> indices db)) in
      (inr indice, {| salles := salles db;
                      mesures := mesures db;
                      indices := indices db ++ [indice];
                      alertes := alertes db |}).

(** [AlerteSerializer.is_valid()]: the foreign key must name a stored
    [Mesure]; type and level are among the choices by their types and the
    message is never blank. *)
Definition alerte_is_valid (db : DB) (mesure : Z) : bool :=
  bool_decide (mesure ∈ mesure_id <$> mesures db).

Definition save_alerte (fault : bool) (now mesure : Z) (a : AlertData) : Tx Alerte :=
  fun db =>
    if fault then (inl DatabaseError, db)
    else
      let alerte := {| alerte_id := fresh_id (alerte_id <$> alertes db);
                       alerte_mesure := mesure;
                       alerte_type := alert_type a;
                       alerte_valeur := alert_valeur a;
                       alerte_seuil := inject_Z (alert_seuil a);
                       alerte_niveau := alert_niveau a;
                       alerte_message := alert_message a;
                       alerte_timestamp := now |} in
      (inr alerte, {| salles := salles db;
                      mesures := mesures db;
                      indices := indices db;
                      alertes := alertes db ++ [alerte] |}).

(** The loop over [alerts_data]: an alert whose serializer is not valid is
    skipped; [k] is the position of the write among the writes of this
    call. *)
Fixpoint save_alerts (faults : nat -> bool) (now mesure : Z) (k : nat)
    (alerts_data : list AlertData) (created_alerts : list Alerte) : Tx (list Alerte) :=
  match alerts_data with
  | [] => tx_ret created_alerts
  | alert_data :: rest =>
      let* db := tx_get in
      if alerte_is_valid db mesure then
        let* alerte := save_alerte (faults k) now mesure alert_data in
        save_alerts faults now mesure (S k) rest (created_alerts ++ [alerte])
      else
        save_alerts faults now mesure (S k) rest created_alerts
  end.

(** The five scores as [collect_measurement] computes them. *)
Definition compute_scores (mesure : Mesure) : Scores :=
  {| sc_temperature := calculate_parameter_score (mesure_temperature mesure) temperature;
     sc_humidite := calculate_parameter_score (mesure_humidite mesure) humidite;
     sc_air := calculate_parameter_score (mesure_air mesure) air;
     sc_bruit := calculate_parameter_score (mesure_bruit mesure) bruit;
     sc_luminosite := calculate_parameter_score (mesure_luminosite mesure) luminosite |}.

(** The body of the [with transaction.atomic()] block.  Write 0 is the
    measurement, write 1 the comfort index, writes 2, 3, ... the alerts. *)
Definition collect_body (faults : nat -> bool) (now : Z) (f : MesureFields) : Tx Response :=
  let* mesure := save_mesure (faults 0%nat) f in
  let scores := compute_scores mesure in
  let global_score := calculate_global_score scores in
  let st := determine_status global_score in
  let* db := tx_get in
  if negb (indice_is_valid db (mesure_id mesure)) then tx_raise ValidationError
  else
    let* indice := save_indice (faults 1%nat)
                     (indice_data mesure scores global_score st) in
    let alerts_data := generate_alerts mesure scores in
    let* created_alerts := save_alerts faults now (mesure_id mesure) 2 alerts_data [] in
    tx_ret {| resp_mesure := mesure;
              resp_indice_confort := indice;
              resp_alertes := created_alerts |}.

Section Ingestion.

(** What Django and the REST framework do with values of other Python
    types (text, booleans, ...) is not part of this repository: the three
    coercions are parameters.  [None] means the library rejects the
    value. *)
Variable coerce_pk : PyVal -> option Z.
Variable coerce_float : PyVal -> option Q.
Variable coerce_datetime : PyVal -> option Z.

(** The lookup value of [get_object_or_404(Salle, id=salle_id)]. *)
Definition pk_of (v : PyVal) : option Z :=
  match v with
  | PyInt n => Some n
  | other => coerce_pk other
  end.

(** A required, non-null [FloatField] of the serializer. *)
Definition float_field (v : PyVal) : option Q :=
  match v with
  | PyNone => None
  | PyInt n => Some (inject_Z n)
  | PyFloat q => Some q
  | other => coerce_float other
  end.

(** The non-null [DateTimeField] of the serializer. *)
Definition datetime_field (v : PyVal) : option Z :=
  match v with
  | PyNone => None
  | PyDateTime t => Some t
  | other => coerce_datetime other
  end.

(** [data.get(key)] yields [None] when the key is absent. *)
Definition data_get (data : gmap string PyVal) (key : string) : PyVal :=
  default PyNone (data !! key).

(** Lines 24-42: everything before the transaction.  [now] is the value of
    [timezone.now()]. *)
Definition validate (now : Z) (data : gmap string PyVal) (db : DB) : Error + MesureFields :=
  let salle_id_v := default (PyInt 1) (data !! "salle_id") in
  if negb (truthy salle_id_v) then inl (ValueError "salle_id is required")
  else
    match pk_of salle_id_v with
    | None => inl (ValueError "Field 'id' expected a number")
    | Some pk =>
        match head (filter (λ s, salle_id s = pk) (salles db)) with
        | None => inl Http404
        | Some salle =>
            let timestamp_v := default (PyDateTime now) (data !! "timestamp") in
            match float_field (data_get data "temperature"),
                  float_field (data_get data "humidite"),
                  float_field (data_get data "air"),
                  float_field (data_get data "bruit"),
                  float_field (data_get data "luminosite"),
                  datetime_field timestamp_v with
            | Some t, Some h, Some a, Some b, Some l, Some ts =>
                inr {| f_salle := salle_id salle;
                       f_temperature := t;
                       f_humidite := h;
                       f_air := a;
                       f_bruit := b;
                       f_luminosite := l;
                       f_timestamp := ts |}
            | _, _, _, _, _, _ => inl ValidationError
            end
        end
    end.

Definition collect_measurement (faults : nat -> bool) (now : Z)
    (data : gmap string PyVal) (db : DB) : (Error + Response) * DB :=
  match validate now data db with
  | inl e => (inl e, db)
  | inr f => atomic (collect_body faults now f) db
  end.

(** The stores the pipeline can produce.  Rooms are created by the
    administrator; every other row comes from a call of
    [collect_measurement], whatever its outcome. *)
Inductive reachable : DB -> Prop :=
  | reachable_init (rooms : list Salle) :
      reachable {| salles := rooms; mesures := []; indices := []; alertes := [] |}
  | reachable_collect (faults : nat -> bool) (now : Z) (data : gmap string PyVal) (db : DB) :
      reachable db ->
      reachable (collect_measurement faults now data db).2.

End Ingestion.

(** ** core/services.py: [get_comfort_evolution] *)

(** The six aggregated columns of [IndiceConfort]. *)
Inductive Column :=
  | col_score_global
  | col_score_temperature
  | col_score_humidite
  | col_score_air
  | col_score_bruit
  | col_score_luminosite.

Definition column_value (c : Column) (i : IndiceConfort) : Q :=
  match c with
  | col_score_global => score_global i
  | col_score_temperature => score_temperature i
  | col_score_humidite => score_humidite i
  | col_score_air => score_air i
  | col_score_bruit => score_bruit i
  | col_score_luminosite => score_luminosite i
  end.

(** One dictionary of the returned list.  SQL aggregates and scalar
    subqueries are nullable, hence [option]. *)
Record EvolutionRow := {
  period : Z;
  min_score_global : option Q;
  max_score_global : option Q;
  avg_score_global : option Q;
  current_score_global : option Q;
  min_score_temp : option Q;
  max_score_temp : option Q;
  avg_score_temp : option Q;
  current_score_temp : option Q;
  min_score_hum : option Q;
  max_score_hum : option Q;
  avg_score_hum : option Q;
  current_score_hum : option Q;
  min_score_air : option Q;
  max_score_air : option Q;
  avg_score_air : option Q;
  current_score_air : option Q;
  min_score_bruit : option Q;
  max_score_bruit : option Q;
  avg_score_bruit : option Q;
  current_score_bruit : option Q;
  min_score_lum : option Q;
  max_score_lum : option Q;
  avg_score_lum : option Q;
  current_score_lum : option Q
}.

(** SQL [MIN], [MAX], [AVG] over the values of a group. *)
Definition sql_min (l : list Q) : option Q :=
  match l with
  | [] => None
  | x :: l' => Some (foldl Qmin x l')
  end.

Definition sql_max (l : list Q) : option Q :=
  match l with
  | [] => None
  | x :: l' => Some (foldl Qmax x l')
  end.

Definition sql_avg (l : list Q) : option Q :=
  match l with
  | [] => None
  | _ :: _ => Some (foldr Qplus 0 l / inject_Z (Z.of_nat (length l)))
  end.

(** SQL [MIN] over timestamps. *)
Definition min_ts (l : list Z) : option Z :=
  match l with
  | [] => None
  | x :: l' => Some (foldl Z.min x l')
  end.

(** [mesure__salle_id]: the room of the measurement an index belongs to. *)
Definition salle_of_indice (db : DB) (i : IndiceConfort) : option Z :=
  mesure_salle <$> head (filter (λ m, mesure_id m = indice_mesure i) (mesures db)).

(** [IndiceConfort.objects.filter(mesure__salle_id=salle_id)] *)
Definition indices_of_salle (db : DB) (salle : Z) : list IndiceConfort :=
  filter (λ i, salle_of_indice db i = Some salle) (indices db).

(** [timedelta(hours=1)] when [period == "hour"], else [timedelta(days=1)],
    in seconds. *)
Definition period_delta (period_name : string) : Z :=
  if String.eqb period_name "hour" then 3600%Z else 86400%Z.

(** [TruncHour] / [TruncDay] of a timestamp. *)
Definition trunc_func (period_name : string) (t : Z) : Z :=
  (t - t mod period_delta period_name)%Z.

(** [.order_by('-timestamp')]: latest first.  Among rows with equal
    timestamps SQL leaves the order open; the stable sort keeps the table
    order. *)
Definition later_first (a b : IndiceConfort) : Prop :=
  (indice_timestamp b ≤ indice_timestamp a)%Z.

#[global] Instance later_first_dec : RelDecision later_first.
Proof. intros a b. unfold later_first. apply _. Defined.

Definition order_by_timestamp_desc (l : list IndiceConfort) : list IndiceConfort :=
  merge_sort later_first l.

(** The six [current_*_sub] subqueries: the rows of the room with
    [period <= timestamp < period + delta], latest first, first row, one
    column. *)
Definition current_sub (db : DB) (salle : Z) (delta : Z) (c : Column) (p : Z) : option Q :=
  column_value c <$>
    head (order_by_timestamp_desc
            (filter (λ i, (p ≤ indice_timestamp i)%Z ∧ (indice_timestamp i < p + delta)%Z)
                    (indices_of_salle db salle))).

(** The rows of [queryset] that fall in one group of the [GROUP BY]. *)
Definition group_of (period_name : string) (queryset : list IndiceConfort) (p : Z) : list IndiceConfort :=
  filter (λ i, trunc_func period_name (indice_timestamp i) = p) queryset.

(** One row of [data]: the aggregates of a group and the six subqueries. *)
Definition evolution_row (db : DB) (salle : Z) (period_name : string)
    (queryset : list IndiceConfort) (p : Z) : EvolutionRow :=
  let g := group_of period_name queryset p in
  let delta := period_delta period_name in
  let vals c := column_value c <$> g in
  {| period := p;
     min_score_global := sql_min (vals col_score_global);
     max_score_global := sql_max (vals col_score_global);
     avg_score_global := sql_avg (vals col_score_global);
     current_score_global := current_sub db salle delta col_score_global p;
     min_score_temp := sql_min (vals col_score_temperature);
     max_score_temp := sql_max (vals col_score_temperature);
     avg_score_temp := sql_avg (vals col_score_temperature);
     current_score_temp := current_sub db salle delta col_score_temperature p;
     min_score_hum := sql_min (vals col_score_humidite);
     max_score_hum := sql_max (vals col_score_humidite);
     avg_score_hum := sql_avg (vals col_score_humidite);
     current_score_hum := current_sub db salle delta col_score_humidite p;
     min_score_air := sql_min (vals col_score_air);
     max_score_air := sql_max (vals col_score_air);
     avg_score_air := sql_avg (vals col_score_air);
     current_score_air := current_sub db salle delta col_score_air p;
     min_score_bruit := sql_min (vals col_score_bruit);
     max_score_bruit := sql_max (vals col_score_bruit);
     avg_score_bruit := sql_avg (vals col_score_bruit);
     current_score_bruit := current_sub db salle delta col_score_bruit p;
     min_score_lum := sql_min (vals col_score_luminosite);
     max_score_lum := sql_max (vals col_score_luminosite);
     avg_score_lum := sql_avg (vals col_score_luminosite);
     current_score_lum := current_sub db salle delta col_score_luminosite p |}.

(** [.values("period")] followed by [.order_by("period")]: the distinct
    truncated timestamps of the queryset, ascending. *)
Definition periods_of (period_name : string) (queryset : list IndiceConfort) : list Z :=
  merge_sort Z.le (remove_dups (trunc_func period_name ∘ indice_timestamp <$> queryset)).

(** [now] is the value of [timezone.now()]. *)
Definition get_comfort_evolution (now : Z) (db : DB) (salle : Z) (period_name : string)
    : Error + list EvolutionRow :=
  if (salle =? 0)%Z then inl (ValueError "salle_id is required")
  else
    match min_ts (indice_timestamp <$> indices_of_salle db salle) with
    | None => inr []
    | Some earliest =>
        let start_date := earliest in
        let end_date := now in
        let queryset :=
          filter (λ i, (start_date ≤ indice_timestamp i)%Z ∧ (indice_timestamp i ≤ end_date)%Z)
                 (indices_of_salle db salle) in
        inr (evolution_row db salle period_name queryset <$> periods_of period_name queryset)
    end.

(** The row's entry for a column, by kind of aggregate. *)
Definition row_min (c : Column) (r : EvolutionRow) : option Q :=
  match c with
  | col_score_global => min_score_global r
  | col_score_temperature => min_score_temp r
  | col_score_humidite => min_score_hum r
  | col_score_air => min_score_air r
  | col_score_bruit => min_score_bruit r
  | col_score_luminosite => min_score_lum r
  end.

Definition row_max (c : Column) (r : EvolutionRow) : option Q :=
  match c with
  | col_score_global => max_score_global r
  | col_score_temperature => max_score_temp r
  | col_score_humidite => max_score_hum r
  | col_score_air => max_score_air r
  | col_score_bruit => max_score_bruit r
  | col_score_luminosite => max_score_lum r
  end.

Definition row_avg (c : Column) (r : EvolutionRow) : option Q :=
  match c with
  | col_score_global => avg_score_global r
  | col_score_temperature => avg_score_temp r
  | col_score_humidite => avg_score_hum r
  | col_score_air => avg_score_air r
  | col_score_bruit => avg_score_bruit r
  | col_score_luminosite => avg_score_lum r
  end.

Definition row_current (c : Column) (r : EvolutionRow) : option Q :=
  match c with
  | col_score_global => current_score_global r
  | col_score_temperature => current_score_temp r
  | col_score_humidite => current_score_hum r
  | col_score_air => current_score_air r
  | col_score_bruit => current_score_bruit r
  | col_score_luminosite => current_score_lum r
  end.

(** ** The specification's vocabulary

    The definitions of this part follow the words of the specification;
    the theorems compare them with the code above. *)

(** The comfort zones. *)
Definition spec_in_zone (p : Param) (v : Q) : Prop :=
  match p with
  | temperature => 22 <= v /\ v <= 26
  | humidite => 40 <= v /\ v <= 60
  | bruit => v <= 60
  | luminosite => 300 <= v /\ v <= 500
  | air => v <= 1000
  end.

(** Distance from the value to the nearest zone boundary. *)
Definition spec_deviation (p : Param) (v : Q) : Q :=
  match p with
  | temperature => Qmin (Qabs (v - 22)) (Qabs (v - 26))
  | humidite => Qmin (Qabs (v - 40)) (Qabs (v - 60))
  | bruit => Qabs (v - 60)
  | luminosite => Qmin (Qabs (v - 300)) (Qabs (v - 500))
  | air => Qabs (v - 1000)
  end.

(** The boundary a value outside the zone has crossed: the minimum when
    below it, the maximum otherwise. *)
Definition spec_violated_boundary (p : Param) (v : Q) : Z :=
  match p with
  | temperature => if Qltb v 22 then 22 else 26
  | humidite => if Qltb v 40 then 40 else 60
  | bruit => 60
  | luminosite => if Qltb v 300 then 300 else 500
  | air => 1000
  end%Z.

(** Width of the tolerance band: 5 for the range-bounded parameters, 10
    for the upper-bound-only ones. *)
Definition spec_tolerance (p : Param) : Q :=
  match p with
  | temperature | humidite | luminosite => 5
  | bruit | air => 10
  end.

(** The reading's value for a parameter. *)
Definition param_value (mesure : Mesure) (p : Param) : Q :=
  match p with
  | temperature => mesure_temperature mesure
  | humidite => mesure_humidite mesure
  | air => mesure_air mesure
  | bruit => mesure_bruit mesure
  | luminosite => mesure_luminosite mesure
  end.

(** The fixed order of the parameters. *)
Definition param_order : list Param :=
  [temperature; humidite; air; bruit; luminosite].

#[global] Instance spec_in_zone_dec p v : Decision (spec_in_zone p v).
Proof.
  destruct p; simpl;
    repeat match goal with
    | |- Decision (_ /\ _) => apply and_dec
    | |- Decision (?x <= ?y) =>
        destruct (Qlt_le_dec y x); [right; lra | left; assumption]
    end.
Defined.

(** Five scores between 0 and 100. *)
Definition scores_in_range (s : Scores) : Prop :=
  (0 <= sc_temperature s <= 100) /\
  (0 <= sc_humidite s <= 100) /\
  (0 <= sc_air s <= 100) /\
  (0 <= sc_bruit s <= 100) /\
  (0 <= sc_luminosite s <= 100).

(** The same score for every parameter. *)
Definition uniform_scores (x : Q) : Scores :=
  {| sc_temperature := x; sc_humidite := x; sc_air := x;
     sc_bruit := x; sc_luminosite := x |}.

(** Every value of the reading lies in its comfort zone. *)
Definition all_in_zone (mesure : Mesure) : Prop :=
  forall p, spec_in_zone p (param_value mesure p).

(** The candidate the specification describes for a value outside its
    zone. *)
Definition spec_candidate (p : Param) (v : Q) (niveau : Niveau.t) : AlertData :=
  {| alert_type := p;
     alert_valeur := v;
     alert_seuil := spec_violated_boundary p v;
     alert_niveau := niveau;
     alert_message := hors_seuil p v (spec_violated_boundary p v) |}.

(** The stored alert [row] is the candidate [a], attached to the
    measurement [mesure] and stamped [now]. *)
Definition persists (mesure now : Z) (a : AlertData) (row : Alerte) : Prop :=
  alerte_mesure row = mesure /\
  alerte_type row = alert_type a /\
  alerte_valeur row = alert_valeur a /\
  alerte_seuil row = inject_Z (alert_seuil a) /\
  alerte_niveau row = alert_niveau a /\
  alerte_message row = alert_message a /\
  alerte_timestamp row = now.

(** Integrity of the store: keys are unique, every index and alert
    belongs to a stored measurement, and every measurement has its
    index. *)
Record db_consistent (db : DB) : Prop := {
  cons_mesure_ids : NoDup (mesure_id <$> mesures db);
  cons_one_to_one : NoDup (indice_mesure <$> indices db);
  cons_indice_fk : forall i, i ∈ indices db -> indice_mesure i ∈ mesure_id <$> mesures db;
  cons_alerte_fk : forall a, a ∈ alertes db -> alerte_mesure a ∈ mesure_id <$> mesures db;
  cons_has_indice : forall m, m ∈ mesures db -> mesure_id m ∈ indice_mesure <$> indices db
}.

(** ** Sample data for the examples *)

(** A library that accepts none of the values left to it. *)
Definition reject {A} (v : PyVal) : option A := None.

Definition no_fault (k : nat) : bool := false.

(** The storage layer raises on write [n] (and on no other). *)
Definition fault_at (n k : nat) : bool := bool_decide (k = n).

Definition reading (t h a b l : Q) : Mesure :=
  {| mesure_id := 1; mesure_salle := 1;
     mesure_temperature := t; mesure_humidite := h; mesure_air := a;
     mesure_bruit := b; mesure_luminosite := l; mesure_timestamp := 0 |}.

Definition one_room : DB :=
  {| salles := [ {| salle_id := 1; salle_nom := "Salle A"; salle_description := "" |} ];
     mesures := []; indices := []; alertes := [] |}.

(** A request with the five fields, an optional room and an optional
    timestamp. *)
Definition request (salle : option PyVal) (ts : option Z) (t h a b l : Q) : gmap string PyVal :=
  let fields : gmap string PyVal :=
    list_to_map [ ("temperature", PyFloat t); ("humidite", PyFloat h);
                  ("air", PyFloat a); ("bruit", PyFloat b);
                  ("luminosite", PyFloat l) ] in
  let with_salle :=
    match salle with
    | Some v => <["salle_id" := v]> fields
    | None => fields
    end in
  match ts with
  | Some t => <["timestamp" := PyDateTime t]> with_salle
  | None => with_salle
  end.

(** The comfort index [collect_measurement] derives from a stored
    measurement (lines 48-70). *)
Definition derived_indice (mesure : Mesure) (id : Z) : IndiceConfort :=
  indice_data mesure (compute_scores mesure)
    (calculate_global_score (compute_scores mesure))
    (determine_status (calculate_global_score (compute_scores mesure))) id.

(** The store after one reading has been ingested into [one_room]. *)
Definition after_one_reading : DB :=
  (collect_measurement reject reject reject no_fault 1000
     (request None None 30 50 500 55 400) one_room).2.

(** ** The specification's vocabulary for the evolution *)

(** The history of a room is [indices_of_salle].  The bucket keyed [p] is
    the interval from [p] (included) to [p + delta] (excluded). *)
Definition in_bucket (period_name : string) (p : Z) (i : IndiceConfort) : Prop :=
  (p ≤ indice_timestamp i)%Z /\ (indice_timestamp i < p + period_delta period_name)%Z.

(** The records of the history whose timestamp falls in the bucket. *)
Definition records_in_bucket (db : DB) (salle : Z) (period_name : string) (p : Z)
    : list IndiceConfort :=
  filter (in_bucket period_name p) (indices_of_salle db salle).

(** Those of them that are dated no later than the time of the query. *)
Definition records_in_bucket_until (now : Z) (db : DB) (salle : Z)
    (period_name : string) (p : Z) : list IndiceConfort :=
  filter (λ i, in_bucket period_name p i /\ (indice_timestamp i ≤ now)%Z)
         (indices_of_salle db salle).

(** No record of the bucket is dated after the time of the query. *)
Definition none_after (now : Z) (db : DB) (salle : Z) (period_name : string) (p : Z) : Prop :=
  forall i, i ∈ records_in_bucket db salle period_name p -> (indice_timestamp i ≤ now)%Z.

Definition is_minimum (o : option Q) (l : list Q) : Prop :=
  exists m, o = Some m /\ m ∈ l /\ forall x, x ∈ l -> m <= x.

Definition is_maximum (o : option Q) (l : list Q) : Prop :=
  exists m, o = Some m /\ m ∈ l /\ forall x, x ∈ l -> x <= m.

(** [a] is the sum of the values divided by their number. *)
Definition is_average (o : option Q) (l : list Q) : Prop :=
  exists a, o = Some a /\ l <> [] /\
            a * inject_Z (Z.of_nat (length l)) == foldr Qplus 0 l.

(** [r] is a record of [l] with the latest timestamp. *)
Definition is_latest (r : IndiceConfort) (l : list IndiceConfort) : Prop :=
  r ∈ l /\ forall i, i ∈ l -> (indice_timestamp i ≤ indice_timestamp r)%Z.

(** Room 1 with a reading at 10:00 (31 degrees) and one at 23:00 of the
    same day (26 degrees); the examples query it at 12:00. *)
Definition two_readings : DB :=
  let db1 := (collect_measurement reject reject reject no_fault 0
                (request None (Some 36000%Z) 31 50 500 55 400) one_room).2 in
  (collect_measurement reject reject reject no_fault 0
     (request None (Some 82800%Z) 26 50 500 55 400) db1).2.

(** The records of the history dated no later than the time of the
    query. *)
Definition history_until (now : Z) (db : DB) (salle : Z) : list IndiceConfort :=
  filter (λ i, (indice_timestamp i ≤ now)%Z) (indices_of_salle db salle).

(** ** The scoring functions on IEEE binary64

    The same three functions of [core/utils.py], over the doubles Python
    computes with: integer thresholds are converted exactly, every
    operation rounds to nearest.  They serve to check that the values the
    rational model gives at the literals of the specification are the
    values of the float computation. *)

(** Conversion of a Python int to float; exact below 2^53. *)
Fixpoint b64_of_pos (p : positive) : float :=
  match p with
  | xH => 1
  | xO p' => 2 * b64_of_pos p'
  | xI p' => 2 * b64_of_pos p' + 1
  end%float.

Definition b64_of_int (n : Z) : float :=
  match n with
  | Z0 => 0
  | Zpos p => b64_of_pos p
  | Zneg p => - b64_of_pos p
  end%float.

Definition b64_py_max (a b : float) : float :=
  if PrimFloat.ltb a b then b else a.

Definition b64_calculate_parameter_score (value : float) (param : Param) : float :=
  let thresh := THRESHOLDS param in
  match th_min thresh, th_max thresh with
  | Some mn, Some mx =>
      if PrimFloat.leb (b64_of_int mn) value && PrimFloat.leb value (b64_of_int mx)
      then 100%float
      else
        let deviation :=
          if PrimFloat.ltb value (b64_of_int mn)
          then PrimFloat.sub (b64_of_int mn) value
          else PrimFloat.sub value (b64_of_int mx) in
        b64_py_max 0%float
          (PrimFloat.sub 100%float (PrimFloat.mul deviation (b64_of_int 10)))
  | None, Some mx =>
      if PrimFloat.leb value (b64_of_int mx) then 100%float
      else
        let deviation := PrimFloat.sub value (b64_of_int mx) in
        b64_py_max 0%float
          (PrimFloat.sub 100%float (PrimFloat.mul deviation (b64_of_int 10)))
  | Some mn, None =>
      if PrimFloat.leb (b64_of_int mn) value then 100%float
      else
        let deviation := PrimFloat.sub (b64_of_int mn) value in
        b64_py_max 0%float
          (PrimFloat.sub 100%float (PrimFloat.mul deviation (b64_of_int 10)))
  | None, None => 0%float
  end.

Definition b64_WEIGHTS (param : Param) : float :=
  match param with
  | temperature => 0.25
  | humidite => 0.20
  | air => 0.25
  | bruit => 0.20
  | luminosite => 0.10
  end%float.

Definition b64_calculate_global_score (t h a b l : float) : float :=
  (t * b64_WEIGHTS temperature +
   h * b64_WEIGHTS humidite +
   a * b64_WEIGHTS air +
   b * b64_WEIGHTS bruit +
   l * b64_WEIGHTS luminosite)%float.

Definition b64_determine_status (global_score : float) : Statut.t :=
  if PrimFloat.leb (b64_of_int 70) global_score then Statut.comfort
  else if PrimFloat.leb (b64_of_int 40) global_score then Statut.warning
  else Statut.danger.

(** What the rows of a store say about one another: each index is the
    index derived from its measurement, each alert is justified by its
    measurement, and a measurement has at most one alert per parameter. *)
Record store_derived (db : DB) : Prop := {
  derived_indices : forall i, i ∈ indices db ->
    exists m, m ∈ mesures db /\ mesure_id m = indice_mesure i /\
              i = derived_indice m (indice_id i);
  derived_alertes : forall a, a ∈ alertes db ->
    exists m, m ∈ mesures db /\ mesure_id m = alerte_mesure a /\
              ~ spec_in_zone (alerte_type a) (param_value m (alerte_type a)) /\
              alerte_valeur a = param_value m (alerte_type a) /\
              alerte_seuil a =
                inject_Z (spec_violated_boundary (alerte_type a)
                            (param_value m (alerte_type a)));
  derived_alertes_unique :
    NoDup ((λ a, (alerte_mesure a, alerte_type a)) <$> alertes db)
}.

(** The number of writes of a successful call: the measurement, its
    index, and one alert per candidate. *)
Definition writes_of (db : DB) (f : MesureFields) : nat :=
  2 + length (generate_alerts
                (mesure_row (fresh_id (mesure_id <$> mesures db)) f)
                (compute_scores (mesure_row (fresh_id (mesure_id <$> mesures db)) f))).

(** ** core/services.py: [get_comfort_statistics] *)

#[global] Instance Statut_eq_dec : EqDecision Statut.t.
Proof. solve_decision. Defined.

(** The exceptions [get_comfort_statistics] can raise: its own
    [ValueError], and the [OverflowError] of Python's date arithmetic. *)
Inductive StatsError :=
  | StatsValueError (msg : string)
  | StatsOverflowError.

(** [timedelta(days=days)], in seconds: Python refuses more than
    999999999 days either way. *)
Definition timedelta_days (days : Z) : option Z :=
  if (Z.abs days <=? 999999999)%Z then Some (days * 86400)%Z else None.

(** The dates Python can represent: years 1 to 9999. *)
Definition MIN_DATETIME : Z := (-62135596800)%Z.
Definition MAX_DATETIME : Z := 253402300799%Z.

(** [end_date - delta]: Python raises when the result is not a date it can
    represent. *)
Definition datetime_sub (t delta : Z) : option Z :=
  let r := (t - delta)%Z in
  if (MIN_DATETIME <=? r)%Z && (r <=? MAX_DATETIME)%Z then Some r else None.

(** The returned dictionary.  [status_distribution] is the list of
    [{'statut': ..., 'count': ...}] dictionaries. *)
Record Statistics := {
  period_days : Z;
  average_score : option Q;
  max_score : option Q;
  min_score : option Q;
  total_measurements : nat;
  status_distribution : list (Statut.t * nat);
  discomfort_percentage : Q;
  alert_count : nat
}.

(** [mesure__salle_id] for an alert. *)
Definition salle_of_alerte (db : DB) (a : Alerte) : option Z :=
  mesure_salle <$> head (filter (λ m, mesure_id m = alerte_mesure a) (mesures db)).

(** The [indices] queryset: the room's comfort indices of the window. *)
Definition stats_window (db : DB) (salle start_date end_date : Z) : list IndiceConfort :=
  filter (λ i, (start_date ≤ indice_timestamp i)%Z /\ (indice_timestamp i ≤ end_date)%Z)
         (indices_of_salle db salle).

(** [.values('statut').annotate(count=Count('statut'))]: one entry per
    status present, with the number of its rows.  SQL leaves the order of
    the groups open; here they come in order of first occurrence. *)
Definition status_counts (window : list IndiceConfort) : list (Statut.t * nat) :=
  (λ st, (st, length (filter (λ i, statut i = st) window))) <$>
    remove_dups (statut <$> window).

(** [now] is the value of [timezone.now()]. *)
Definition get_comfort_statistics (now : Z) (db : DB) (salle : Z) (days : Z)
    : StatsError + Statistics :=
  if (salle =? 0)%Z then inl (StatsValueError "salle_id is required")
  else
    let end_date := now in
    match timedelta_days days with
    | None => inl StatsOverflowError
    | Some delta =>
        match datetime_sub end_date delta with
        | None => inl StatsOverflowError
        | Some start_date =>
            let indices := stats_window db salle start_date end_date in
            let scores := score_global <$> indices in
            let discomfort_count :=
              length (filter (λ i, statut i = Statut.warning \/ statut i = Statut.danger)
                             indices) in
            let total_count := length indices in
            let discomfort_percentage :=
              if (0 <? total_count)%nat
              then inject_Z (Z.of_nat discomfort_count) /
                   inject_Z (Z.of_nat total_count) * 100
              else 0 in
            let alert_count :=
              length (filter (λ a, salle_of_alerte db a = Some salle /\
                                   (start_date ≤ alerte_timestamp a)%Z /\
                                   (alerte_timestamp a ≤ end_date)%Z)
                             (alertes db)) in
            inr {| period_days := days;
                   average_score := sql_avg scores;
                   max_score := sql_max scores;
                   min_score := sql_min scores;
                   total_measurements := length indices;
                   status_distribution := status_counts indices;
                   discomfort_percentage := discomfort_percentage;
                   alert_count := alert_count |}
        end
    end.

(** The window of [get_comfort_statistics]: the room's indices of the last
    [days] days. *)
Definition window_of (now : Z) (db : DB) (salle days : Z) : list IndiceConfort :=
  stats_window db salle (now - days * 86400) now.

(** A status of discomfort. *)
Definition discomfort (i : IndiceConfort) : Prop :=
  statut i = Statut.warning \/ statut i = Statut.danger.

(** The window's date arithmetic stays within what Python can
    represent. *)
Definition window_representable (now days : Z) : Prop :=
  (Z.abs days ≤ 999999999)%Z /\
  (MIN_DATETIME ≤ now - days * 86400)%Z /\
  (now - days * 86400 ≤ MAX_DATETIME)%Z.

(** * Theorems *)

(** ** Comparisons *)

Lemma Qltb_lt x y : Qltb x y = true <-> x < y.
Proof.
  unfold Qltb. rewrite negb_true_iff. split.
  - intros H. apply Qnot_le_lt. rewrite <- Qle_bool_iff. congruence.
  - intros H. destruct (Qle_bool y x) eqn:E; [|done].
    apply Qle_bool_iff in E. lra.
Qed.

Lemma Qltb_ge x y : Qltb x y = false <-> y <= x.
Proof.
  unfold Qltb. rewrite negb_false_iff. apply Qle_bool_iff.
Qed.

Lemma Qle_bool_lt x y : Qle_bool x y = false <-> y < x.
Proof.
  rewrite <- Qltb_lt. unfold Qltb. by rewrite negb_true_iff.
Qed.

Lemma py_max_Qmax a b : py_max a b == Qmax a b.
Proof.
  unfold py_max. destruct (Qltb a b) eqn:E.
  - apply Qltb_lt in E. symmetry. apply Q.max_r. lra.
  - apply Qltb_ge in E. symmetry. by apply Q.max_l.
Qed.

(** Case analysis on every comparison of the goal, leaving the order facts
    as hypotheses. *)
Ltac cmp_cases :=
  repeat match goal with
  | |- context [Qle_bool ?a ?b] =>
      let E := fresh "E" in
      destruct (Qle_bool a b) eqn:E;
      [apply Qle_bool_iff in E | apply Qle_bool_lt in E]
  | |- context [Qltb ?a ?b] =>
      let E := fresh "E" in
      destruct (Qltb a b) eqn:E;
      [apply Qltb_lt in E | apply Qltb_ge in E]
  end.

Ltac inj_consts :=
  change (inject_Z 22) with 22 in *; change (inject_Z 26) with 26 in *;
  change (inject_Z 40) with 40 in *; change (inject_Z 60) with 60 in *;
  change (inject_Z 300) with 300 in *; change (inject_Z 500) with 500 in *;
  change (inject_Z 1000) with 1000 in *.

Lemma py_max_0_range x : x <= 100 -> 0 <= py_max 0 x /\ py_max 0 x <= 100.
Proof.
  intros H. unfold py_max. cmp_cases; lra.
Qed.

Lemma Qabs_case_le x : (0 <= x -> Qabs x == x) /\ (x <= 0 -> Qabs x == - x).
Proof.
  split; intros H.
  - by apply Qabs_pos.
  - by apply Qabs_neg.
Qed.

(** ** Scores *)

Lemma score_in_zone p v :
  spec_in_zone p v -> calculate_parameter_score v p = 100.
Proof.
  destruct p; unfold calculate_parameter_score; simpl; inj_consts;
    intros H; cmp_cases; simpl; try reflexivity; lra.
Qed.

Lemma deviation_below a b v :
  v < a -> a <= b -> Qmin (Qabs (v - a)) (Qabs (v - b)) == a - v.
Proof.
  intros H1 H2.
  destruct (Qabs_case_le (v - a)) as [_ Ha], (Qabs_case_le (v - b)) as [_ Hb].
  rewrite Ha, Hb by lra. rewrite Q.min_l by lra. lra.
Qed.

Lemma deviation_above a b v :
  b < v -> a <= b -> Qmin (Qabs (v - a)) (Qabs (v - b)) == v - b.
Proof.
  intros H1 H2.
  destruct (Qabs_case_le (v - a)) as [Ha _], (Qabs_case_le (v - b)) as [Hb _].
  rewrite Ha, Hb by lra. rewrite Q.min_r by lra. lra.
Qed.

Lemma deviation_upper b v : b < v -> Qabs (v - b) == v - b.
Proof.
  intros H. apply Qabs_pos. lra.
Qed.

Lemma score_out_of_zone p v :
  ~ spec_in_zone p v ->
  calculate_parameter_score v p == Qmax 0 (100 - spec_deviation p v * 10).
Proof.
  intros H. rewrite <- py_max_Qmax.
  assert (Hmax : forall a b, a == b -> py_max 0 a == py_max 0 b).
  { intros a b Hab. rewrite !py_max_Qmax. by rewrite Hab. }
  destruct p; unfold calculate_parameter_score, spec_deviation, spec_in_zone in *;
    cbn [THRESHOLDS th_min th_max]; inj_consts;
    cmp_cases; cbn [andb]; try (exfalso; apply H; lra); apply Hmax.
  all: first [ rewrite deviation_below by lra
             | rewrite deviation_above by lra
             | rewrite deviation_upper by lra ]; lra.
Qed.

Lemma score_range v p :
  0 <= calculate_parameter_score v p /\ calculate_parameter_score v p <= 100.
Proof.
  destruct p; unfold calculate_parameter_score; simpl; inj_consts;
    cmp_cases; simpl; try lra; apply py_max_0_range; lra.
Qed.

(** C1.  For each of the five parameters and every value, the score is
    exactly 100 when the value lies in the parameter's comfort zone;
    outside the zone it is max(0, 100 - deviation * 10), where deviation is
    the distance to the nearest zone boundary; in all cases the score lies
    between 0 and 100. *)
Theorem C1_score_parameter (p : Param) (v : Q) :
  (spec_in_zone p v -> calculate_parameter_score v p = 100) /\
  (~ spec_in_zone p v ->
     calculate_parameter_score v p == Qmax 0 (100 - spec_deviation p v * 10)) /\
  0 <= calculate_parameter_score v p <= 100.
Proof.
  split; [apply score_in_zone|].
  split; [apply score_out_of_zone|].
  apply score_range.
Qed.

Lemma C1_score_parameter_witness :
  calculate_parameter_score 24 temperature = 100 /\
  calculate_parameter_score 30 temperature == 60.
Proof.
  split.
  - apply (proj1 (C1_score_parameter temperature 24)). simpl. lra.
  - rewrite (proj1 (proj2 (C1_score_parameter temperature 30))).
    + reflexivity.
    + simpl. lra.
Defined.

(** C2.  For five scores between 0 and 100 the global score is
    0.25*temperature + 0.20*humidity + 0.25*air + 0.20*noise + 0.10*light
    and lies between 0 and 100; five scores of 100 give 100 and five
    scores of 0 give 0. *)
Theorem C2_global_score :
  (forall s : Scores,
     scores_in_range s ->
     calculate_global_score s ==
       0.25 * sc_temperature s + 0.20 * sc_humidite s + 0.25 * sc_air s +
       0.20 * sc_bruit s + 0.10 * sc_luminosite s /\
     0 <= calculate_global_score s <= 100) /\
  calculate_global_score (uniform_scores 100) == 100 /\
  calculate_global_score (uniform_scores 0) == 0.
Proof.
  split; [|split; reflexivity].
  intros s (Ht & Hh & Ha & Hb & Hl).
  unfold calculate_global_score, WEIGHTS.
  repeat split; lra.
Qed.

Lemma C2_global_score_witness :
  calculate_global_score
    {| sc_temperature := 60; sc_humidite := 100; sc_air := 100;
       sc_bruit := 100; sc_luminosite := 100 |} <= 100.
Proof.
  apply (proj1 C2_global_score). unfold scores_in_range. simpl. lra.
Defined.

(** ** Status *)

(** C3.  A global score of at least 70 is comfort, one of at least 40 and
    below 70 is warning, one below 40 is danger, with no tolerance: 70 is
    comfort, 69.999 warning, 40 warning and 39.999 danger. *)
Theorem C3_classify_status :
  (forall g : Q,
     (70 <= g -> determine_status g = Statut.comfort) /\
     (40 <= g /\ g < 70 -> determine_status g = Statut.warning) /\
     (g < 40 -> determine_status g = Statut.danger)) /\
  determine_status 70 = Statut.comfort /\
  determine_status 69.999 = Statut.warning /\
  determine_status 40 = Statut.warning /\
  determine_status 39.999 = Statut.danger.
Proof.
  split; [|repeat split; reflexivity].
  intros g. unfold determine_status.
  repeat split; intros H; cmp_cases; try reflexivity; lra.
Qed.

Lemma C3_classify_status_witness :
  determine_status 85 = Statut.comfort /\
  determine_status 55 = Statut.warning /\
  determine_status 12.5 = Statut.danger.
Proof.
  destruct (proj1 C3_classify_status 85) as (H1 & _ & _).
  destruct (proj1 C3_classify_status 55) as (_ & H2 & _).
  destruct (proj1 C3_classify_status 12.5) as (_ & _ & H3).
  split; [apply H1; lra|].
  split; [apply H2; lra|].
  apply H3; lra.
Defined.

(** ** Alerts *)

Lemma alert_step_app acc item : alert_step acc item = acc ++ alert_step [] item.
Proof.
  destruct item as [p v]. unfold alert_step.
  destruct (check_threshold (THRESHOLDS p) v) as [[seuil niveau]|].
  - reflexivity.
  - by rewrite app_nil_r.
Qed.

(** The loop appends, parameter after parameter, what each iteration
    contributes on its own. *)
Lemma generate_alerts_concat mesure scores :
  generate_alerts mesure scores =
  param_order ≫= (λ p, alert_step [] (p, param_value mesure p)).
Proof.
  unfold generate_alerts, params_items, param_order. cbn [fold_left mbind list_bind].
  cbn [param_value].
  repeat (rewrite (alert_step_app (_ ++ _)) || rewrite (alert_step_app (alert_step _ _))).
  rewrite app_nil_r, <- !app_assoc. reflexivity.
Qed.

Lemma alert_step_in_zone p v : spec_in_zone p v -> alert_step [] (p, v) = [].
Proof.
  destruct p; unfold alert_step, check_threshold, spec_in_zone;
    cbn [THRESHOLDS th_min th_max]; inj_consts;
    intros H; cmp_cases; try reflexivity; lra.
Qed.

Lemma alert_step_out_of_zone p v :
  ~ spec_in_zone p v ->
  exists niveau,
    alert_step [] (p, v) = [spec_candidate p v niveau] /\
    (spec_deviation p v <= spec_tolerance p -> niveau = Niveau.warning) /\
    (spec_tolerance p < spec_deviation p v -> niveau = Niveau.danger).
Proof.
  intros H.
  destruct p;
    unfold alert_step, check_threshold, spec_candidate, spec_violated_boundary,
      spec_deviation, spec_tolerance, spec_in_zone in *;
    cbn [THRESHOLDS th_min th_max];
    change (inject_Z (22 - 5)) with 17; change (inject_Z (26 + 5)) with 31;
    change (inject_Z (40 - 5)) with 35; change (inject_Z (60 + 5)) with 65;
    change (inject_Z (300 - 5)) with 295; change (inject_Z (500 + 5)) with 505;
    change (inject_Z (60 + 10)) with 70; change (inject_Z (1000 + 10)) with 1010;
    inj_consts; cmp_cases; try (exfalso; apply H; lra).
  all: eexists; split; [reflexivity|].
  all: first [ rewrite deviation_below by lra
             | rewrite deviation_above by lra
             | rewrite deviation_upper by lra ].
  all: split; intros Hd; first [reflexivity | lra].
Qed.

Lemma filter_alert_step p q v :
  filter (λ a, alert_type a = p) (alert_step [] (q, v)) =
  if decide (q = p) then alert_step [] (q, v) else [].
Proof.
  unfold alert_step.
  destruct (check_threshold (THRESHOLDS q) v) as [[seuil niveau]|]; cbn [app].
  - rewrite filter_cons, filter_nil. cbn [alert_type].
    destruct (decide (q = p)); reflexivity.
  - rewrite filter_nil. by destruct (decide (q = p)).
Qed.

Lemma filter_generate_alerts mesure scores p :
  filter (λ a, alert_type a = p) (generate_alerts mesure scores) =
  alert_step [] (p, param_value mesure p).
Proof.
  rewrite generate_alerts_concat. unfold param_order. cbn [mbind list_bind].
  rewrite !filter_app, !filter_alert_step, filter_nil.
  destruct p; cbn; by rewrite ?app_nil_r.
Qed.

(** C4.  For a parameter whose value is outside its comfort zone the list
    holds exactly one candidate of that parameter; it records the value and
    the violated boundary (the minimum when below, the maximum when above)
    and its level is warning when the deviation is at most the tolerance
    (5 for temperature, humidity and light, 10 for noise and air), danger
    otherwise. *)
Theorem C4_alert_candidate (mesure : Mesure) (scores : Scores) (p : Param) :
  ~ spec_in_zone p (param_value mesure p) ->
  exists niveau,
    filter (λ a, alert_type a = p) (generate_alerts mesure scores) =
      [spec_candidate p (param_value mesure p) niveau] /\
    (spec_deviation p (param_value mesure p) <= spec_tolerance p ->
       niveau = Niveau.warning) /\
    (spec_tolerance p < spec_deviation p (param_value mesure p) ->
       niveau = Niveau.danger).
Proof.
  intros H. rewrite filter_generate_alerts. by apply alert_step_out_of_zone.
Qed.

(** C10.  The candidates come in the fixed order temperature, humidity,
    air, noise, light, restricted to the parameters outside their zones;
    the list is a function of the reading alone. *)
Theorem C10_alert_order (mesure : Mesure) (scores scores' : Scores) :
  alert_type <$> generate_alerts mesure scores =
    filter (λ p, ~ spec_in_zone p (param_value mesure p)) param_order /\
  generate_alerts mesure scores = generate_alerts mesure scores'.
Proof.
  split; [|reflexivity].
  rewrite generate_alerts_concat. unfold param_order.
  assert (Hone : forall p,
    alert_type <$> alert_step [] (p, param_value mesure p) =
    filter (λ p, ~ spec_in_zone p (param_value mesure p)) [p]).
  { intros p. rewrite filter_cons, filter_nil.
    destruct (decide (~ spec_in_zone p (param_value mesure p))) as [Hout|Hin].
    - destruct (alert_step_out_of_zone p _ Hout) as (nv & -> & _). reflexivity.
    - apply dec_stable in Hin. by rewrite alert_step_in_zone. }
  cbn [mbind list_bind]. rewrite !fmap_app, !Hone, app_nil_r.
  rewrite <- !filter_app. reflexivity.
Qed.

Lemma C4_alert_candidate_witness :
  exists niveau,
    filter (λ a, alert_type a = temperature)
      (generate_alerts (reading 21 50 500 55 400) (uniform_scores 100)) =
      [spec_candidate temperature 21 niveau] /\
    (spec_deviation temperature 21 <= spec_tolerance temperature ->
       niveau = Niveau.warning) /\
    (spec_tolerance temperature < spec_deviation temperature 21 ->
       niveau = Niveau.danger).
Proof.
  apply (C4_alert_candidate (reading 21 50 500 55 400) (uniform_scores 100) temperature).
  simpl. lra.
Defined.

(** The examples of the specification: 21 and 10 degrees, 65 and 75 dB. *)
Example alerts_temperature_21 :
  generate_alerts (reading 21 50 500 55 400) (uniform_scores 100) =
  [spec_candidate temperature 21 Niveau.warning].
Proof. reflexivity. Qed.

Example alerts_temperature_10 :
  generate_alerts (reading 10 50 500 55 400) (uniform_scores 100) =
  [spec_candidate temperature 10 Niveau.danger].
Proof. reflexivity. Qed.

Example alerts_noise_65_75 :
  generate_alerts (reading 24 50 500 65 400) (uniform_scores 100) =
    [spec_candidate bruit 65 Niveau.warning] /\
  generate_alerts (reading 24 50 500 75 400) (uniform_scores 100) =
    [spec_candidate bruit 75 Niveau.danger].
Proof. split; reflexivity. Qed.

(** ** Ingestion *)

Lemma fresh_id_above ids x : x ∈ ids -> (x < fresh_id ids)%Z.
Proof.
  unfold fresh_id. induction ids as [|y ids IH]; intros Hx.
  - by apply elem_of_nil in Hx.
  - apply elem_of_cons in Hx as [->|Hx]; cbn [foldr]; [lia|].
    specialize (IH Hx). lia.
Qed.

Lemma fresh_id_fresh ids : fresh_id ids ∉ ids.
Proof.
  intros H. apply fresh_id_above in H. lia.
Qed.

(** The alert loop: every candidate is written, in order, unless the
    storage layer raises. *)
Lemma save_alerts_outcome faults now mid alerts :
  forall k created db,
    mid ∈ mesure_id <$> mesures db ->
    match save_alerts faults now mid k alerts created db with
    | (inl e, _) => exists i, (i < length alerts)%nat /\ faults (k + i)%nat = true
    | (inr out, db') =>
        exists rows,
          out = created ++ rows /\
          Forall2 (persists mid now) alerts rows /\
          salles db' = salles db /\
          mesures db' = mesures db /\
          indices db' = indices db /\
          alertes db' = alertes db ++ rows /\
          forall i, (i < length alerts)%nat -> faults (k + i)%nat = false
    end.
Proof.
  induction alerts as [|a alerts IH]; intros k created db Hmid.
  - cbn. exists []. rewrite !app_nil_r. repeat split; try constructor.
    intros i Hi. cbn in Hi. lia.
  - cbn [save_alerts]. unfold tx_bind at 1, tx_get.
    unfold alerte_is_valid. rewrite bool_decide_eq_true_2 by done.
    unfold tx_bind at 1, save_alerte.
    destruct (faults k) eqn:Hk.
    + exists 0%nat. cbn [length]. split; [lia|]. by rewrite Nat.add_0_r.
    + match goal with
      | |- context [save_alerts _ _ _ _ _ ?c ?d] =>
          specialize (IH (S k) c d Hmid); destruct (save_alerts faults now mid (S k) alerts c d) as [[e|out] db']
      end.
      * destruct IH as (i & Hi & Hf). exists (S i). cbn [length]. split; [lia|].
        by rewrite Nat.add_succ_r.
      * destruct IH as (rows & -> & HF & Hs & Hm & Hi & Ha & Hf).
        cbn in Hs, Hm, Hi, Ha.
        eexists (_ :: rows). rewrite <- app_assoc. split; [reflexivity|].
        split; [constructor; [repeat split|exact HF]|].
        repeat split; try done.
        -- rewrite Ha, <- app_assoc. reflexivity.
        -- intros [|i] Hlt; [by rewrite Nat.add_0_r|].
           rewrite Nat.add_succ_r. apply Hf. cbn in Hlt. lia.
Qed.

(** What a successful run of the transaction body returns and writes. *)
Lemma collect_body_outcome faults now f db :
  match collect_body faults now f db with
  | (inl e, _) => True
  | (inr r, db') =>
      resp_mesure r = mesure_row (fresh_id (mesure_id <$> mesures db)) f /\
      resp_indice_confort r =
        derived_indice (resp_mesure r) (fresh_id (indice_id <$> indices db)) /\
      (mesure_id (resp_mesure r) ∉ indice_mesure <$> indices db) /\
      Forall2 (persists (mesure_id (resp_mesure r)) now)
        (generate_alerts (resp_mesure r) (compute_scores (resp_mesure r)))
        (resp_alertes r) /\
      salles db' = salles db /\
      mesures db' = mesures db ++ [resp_mesure r] /\
      indices db' = indices db ++ [resp_indice_confort r] /\
      alertes db' = alertes db ++ resp_alertes r
  end.
Proof.
  unfold collect_body, tx_bind at 1, save_mesure.
  destruct (faults 0%nat); [done|].
  set (m := mesure_row _ f).
  unfold tx_bind at 1, tx_get.
  destruct (indice_is_valid _ (mesure_id m)) eqn:Hv; cbn [negb]; [|done].
  apply andb_true_iff in Hv as [Hin Hnot].
  apply bool_decide_eq_true in Hin, Hnot. cbn [mesures indices] in Hin, Hnot.
  unfold tx_bind at 1, save_indice. cbn [indices mesures salles alertes].
  destruct (faults 1%nat); [done|].
  unfold tx_bind at 1.
  match goal with
  | |- context [save_alerts ?fl ?n ?mi ?k ?al ?c ?d] =>
      pose proof (save_alerts_outcome fl n mi al k c d) as Hal;
      destruct (save_alerts fl n mi k al c d) as [[e|out] db']
  end; [done|].
  destruct Hal as (rows & -> & HF & Hs & Hm & Hi & Ha & _); [exact Hin|].
  cbn in Hs, Hm, Hi, Ha. unfold tx_ret. cbn [resp_mesure resp_indice_confort resp_alertes].
  repeat split; try done.
Qed.

(** The transaction body succeeds whenever the storage layer does, on a
    store whose indices all belong to stored measurements. *)
Lemma collect_body_succeeds faults now f db :
  (forall i, i ∈ indices db -> indice_mesure i ∈ mesure_id <$> mesures db) ->
  (forall k, faults k = false) ->
  exists r db', collect_body faults now f db = (inr r, db').
Proof.
  intros Hfk Hok.
  unfold collect_body, tx_bind at 1, save_mesure. rewrite Hok.
  set (m := mesure_row _ f).
  unfold tx_bind at 1, tx_get.
  assert (Hin : mesure_id m ∈ mesure_id <$> mesures db ++ [m]).
  { rewrite fmap_app. apply elem_of_app. right. cbn. by apply list_elem_of_singleton. }
  assert (Hnot : mesure_id m ∉ indice_mesure <$> indices db).
  { intros Hx. apply list_elem_of_fmap in Hx as (i & Hi & Hx).
    apply Hfk in Hx. rewrite <- Hi in Hx. by apply fresh_id_fresh in Hx. }
  unfold indice_is_valid. cbn [mesures indices].
  rewrite !bool_decide_eq_true_2 by done. cbn [andb negb].
  unfold tx_bind at 1, save_indice. rewrite Hok.
  unfold tx_bind at 1.
  match goal with
  | |- context [save_alerts ?fl ?n ?mi ?k ?al ?c ?d] =>
      pose proof (save_alerts_outcome fl n mi al k c d) as Hal;
      destruct (save_alerts fl n mi k al c d) as [[e|out] db']
  end.
  - destruct Hal as (i & _ & Hf); [exact Hin|]. rewrite Hok in Hf. done.
  - unfold tx_ret. eauto.
Qed.

Lemma persists_mesure mid now alerts rows :
  Forall2 (persists mid now) alerts rows ->
  forall row, row ∈ rows -> alerte_mesure row = mid.
Proof.
  induction 1 as [|a row alerts rows Hp _ IH]; intros r Hr.
  - by apply elem_of_nil in Hr.
  - apply elem_of_cons in Hr as [->|Hr]; [apply Hp|by apply IH].
Qed.

(** A committed transaction keeps the store consistent. *)
Lemma collect_body_consistent faults now f db r db' :
  db_consistent db ->
  collect_body faults now f db = (inr r, db') ->
  db_consistent db'.
Proof.
  intros [Hids Huniq Hifk Hafk Hhas] Hrun.
  pose proof (collect_body_outcome faults now f db) as Hout.
  rewrite Hrun in Hout.
  destruct Hout as (Hm & Hi & Hnot & HF & Hs & Hms & His & Has).
  assert (Hmid : indice_mesure (resp_indice_confort r) = mesure_id (resp_mesure r))
    by (rewrite Hi; reflexivity).
  assert (Hnew : mesure_id (resp_mesure r) ∈ mesure_id <$> mesures db').
  { rewrite Hms, fmap_app. apply elem_of_app. right. by apply list_elem_of_singleton. }
  assert (Hold : forall x, x ∈ mesure_id <$> mesures db -> x ∈ mesure_id <$> mesures db').
  { intros x Hx. rewrite Hms, fmap_app. apply elem_of_app. by left. }
  split.
  - rewrite Hms, fmap_app. apply NoDup_app. split; [done|]. split.
    + intros x Hx Hx'. apply list_elem_of_singleton in Hx'. subst x.
      rewrite Hm in Hx. cbn in Hx. by apply fresh_id_fresh in Hx.
    + apply NoDup_singleton.
  - rewrite His, fmap_app. apply NoDup_app. split; [done|]. split.
    + intros x Hx Hx'. apply list_elem_of_singleton in Hx'. subst x.
      rewrite Hmid in Hx. done.
    + apply NoDup_singleton.
  - intros i Hin. rewrite His in Hin. apply elem_of_app in Hin as [Hin|Hin].
    + apply Hold. by apply Hifk.
    + apply list_elem_of_singleton in Hin. subst i. by rewrite Hmid.
  - intros a Hin. rewrite Has in Hin. apply elem_of_app in Hin as [Hin|Hin].
    + apply Hold. by apply Hafk.
    + by rewrite (persists_mesure _ _ _ _ HF a Hin).
  - intros m Hin. rewrite Hms in Hin. rewrite His, fmap_app.
    apply elem_of_app in Hin as [Hin|Hin]; apply elem_of_app.
    + left. by apply Hhas.
    + right. apply list_elem_of_singleton in Hin. subst m.
      rewrite <- Hmid. by apply list_elem_of_singleton.
Qed.

Section IngestionProperties.

Variable coerce_pk : PyVal -> option Z.
Variable coerce_float : PyVal -> option Q.
Variable coerce_datetime : PyVal -> option Z.

Local Abbreviation validate' := (validate coerce_pk coerce_float coerce_datetime).
Local Abbreviation collect' := (collect_measurement coerce_pk coerce_float coerce_datetime).
Local Abbreviation reachable' := (reachable coerce_pk coerce_float coerce_datetime).

Lemma collect_measurement_rejected faults now data db e :
  validate' now data db = inl e ->
  collect' faults now data db = (inl e, db).
Proof.
  intros H. unfold collect_measurement. by rewrite H.
Qed.

Lemma collect_measurement_consistent faults now data db :
  db_consistent db -> db_consistent (collect' faults now data db).2.
Proof.
  intros Hc. unfold collect_measurement.
  destruct (validate' now data db) as [e|f]; [done|].
  unfold atomic. destruct (collect_body faults now f db) as [[e|r] db'] eqn:Hrun; [done|].
  cbn. by eapply collect_body_consistent.
Qed.

Lemma reachable_consistent db : reachable' db -> db_consistent db.
Proof.
  induction 1 as [rooms|faults now data db _ IH].
  - split; cbn; try apply NoDup_nil_2; intros x Hx; by apply elem_of_nil in Hx.
  - by apply collect_measurement_consistent.
Qed.

(** On a reachable store, a request that passes validation is ingested
    whenever the storage layer does not fail. *)
Lemma collect_measurement_succeeds faults now data db f :
  reachable' db ->
  validate' now data db = inr f ->
  (forall k, faults k = false) ->
  exists r db', collect' faults now data db = (inr r, db').
Proof.
  intros Hr Hv Hok. unfold collect_measurement, atomic. rewrite Hv.
  destruct (collect_body_succeeds faults now f db) as (r & db' & ->); [|done|eauto].
  apply reachable_consistent in Hr. apply Hr.
Qed.

(** C7.  A call leaves the store untouched when it ends in an error, and
    otherwise adds exactly the measurement, its comfort index and one
    alert row per candidate; in every reachable store each measurement has
    its comfort index, and no two indices share a measurement. *)
Theorem C7_atomic_ingestion :
  (forall faults now data db,
     match collect' faults now data db with
     | (inl e, db') => db' = db
     | (inr r, db') =>
         salles db' = salles db /\
         mesures db' = mesures db ++ [resp_mesure r] /\
         indices db' = indices db ++ [resp_indice_confort r] /\
         indice_mesure (resp_indice_confort r) = mesure_id (resp_mesure r) /\
         alertes db' = alertes db ++ resp_alertes r /\
         Forall2 (persists (mesure_id (resp_mesure r)) now)
           (generate_alerts (resp_mesure r) (compute_scores (resp_mesure r)))
           (resp_alertes r)
     end) /\
  (forall db,
     reachable' db ->
     NoDup (indice_mesure <$> indices db) /\
     forall m, m ∈ mesures db ->
       exists i, i ∈ indices db /\ indice_mesure i = mesure_id m).
Proof.
  split.
  - intros faults now data db. unfold collect_measurement.
    destruct (validate' now data db) as [e|f]; [done|].
    unfold atomic.
    pose proof (collect_body_outcome faults now f db) as Hout.
    destruct (collect_body faults now f db) as [[e|r] db']; [done|].
    destruct Hout as (Hm & Hi & Hnot & HF & Hs & Hms & His & Has).
    repeat split; try done. rewrite Hi. reflexivity.
  - intros db Hr. apply reachable_consistent in Hr as [_ Huniq _ _ Hhas].
    split; [done|]. intros m Hm. apply Hhas in Hm.
    apply list_elem_of_fmap in Hm as (i & Hi & Hin). eauto.
Qed.

Lemma all_in_zone_no_alert mesure scores :
  all_in_zone mesure -> generate_alerts mesure scores = [].
Proof.
  intros H. rewrite generate_alerts_concat. unfold param_order.
  cbn [mbind list_bind]. by rewrite !alert_step_in_zone by apply H.
Qed.

Lemma all_in_zone_comfort mesure id :
  all_in_zone mesure -> statut (derived_indice mesure id) = Statut.comfort.
Proof.
  intros H. unfold derived_indice, indice_data, compute_scores. cbn [statut].
  rewrite (score_in_zone temperature) by apply (H temperature).
  rewrite (score_in_zone humidite) by apply (H humidite).
  rewrite (score_in_zone air) by apply (H air).
  rewrite (score_in_zone bruit) by apply (H bruit).
  rewrite (score_in_zone luminosite) by apply (H luminosite).
  reflexivity.
Qed.

(** C5.  A reading whose five values all lie in their comfort zones
    yields no candidate and a comfort index of status comfort; when such a
    reading is ingested, no alert row is written and the stored index has
    status comfort. *)
Theorem C5_all_in_zone :
  (forall mesure scores id,
     all_in_zone mesure ->
     generate_alerts mesure scores = [] /\
     statut (derived_indice mesure id) = Statut.comfort) /\
  (forall faults now data db r db',
     collect' faults now data db = (inr r, db') ->
     all_in_zone (resp_mesure r) ->
     resp_alertes r = [] /\
     alertes db' = alertes db /\
     statut (resp_indice_confort r) = Statut.comfort).
Proof.
  split.
  - intros mesure scores id H. split.
    + by apply all_in_zone_no_alert.
    + by apply all_in_zone_comfort.
  - intros faults now data db r db' Hrun Hz. unfold collect_measurement in Hrun.
    destruct (validate' now data db) as [e|f]; [done|].
    unfold atomic in Hrun.
    pose proof (collect_body_outcome faults now f db) as Hout.
    destruct (collect_body faults now f db) as [[e|r0] db0]; [done|].
    injection Hrun as -> ->.
    destruct Hout as (Hm & Hi & Hnot & HF & Hs & Hms & His & Has).
    rewrite all_in_zone_no_alert in HF by done.
    apply Forall2_nil_inv_l in HF.
    rewrite HF in Has. rewrite app_nil_r in Has.
    repeat split; try done.
    rewrite Hi. by apply all_in_zone_comfort.
Qed.

(** C6, as the code has it.  The room reference is the request's
    [salle_id], or room 1 when the request has none.  When that reference
    is empty (null, zero, empty text, false) or names no stored room, the
    call fails during validation and writes nothing.  A request without a
    timestamp is stored with the current time. *)
Theorem C6_validation_rejects faults now data db :
  (truthy (default (PyInt 1) (data !! "salle_id")) = false \/
   (forall pk, pk_of coerce_pk (default (PyInt 1) (data !! "salle_id")) = Some pk ->
               pk ∉ salle_id <$> salles db) ->
   exists e,
     validate' now data db = inl e /\
     collect' faults now data db = (inl e, db)) /\
  (data !! "timestamp" = None ->
   forall r db',
     collect' faults now data db = (inr r, db') ->
     mesure_timestamp (resp_mesure r) = now /\
     indice_timestamp (resp_indice_confort r) = now).
Proof.
  split.
  - intros H.
    assert (Hv : exists e, validate' now data db = inl e).
    { unfold validate. destruct H as [H|H].
      - rewrite H. cbn [negb]. eauto.
      - destruct (truthy _); cbn [negb]; [|eauto].
        destruct (pk_of coerce_pk _) as [pk|] eqn:Hpk; [|eauto].
        specialize (H pk eq_refl).
        destruct (head (filter _ (salles db))) as [s|] eqn:Hs; [|eauto].
        exfalso. apply H. apply head_Some_elem_of in Hs.
        apply list_elem_of_filter in Hs as [Hid Hin].
        apply list_elem_of_fmap. eauto. }
    destruct Hv as [e Hv]. exists e. split; [done|].
    by apply collect_measurement_rejected.
  - intros Hts r db' Hrun. unfold collect_measurement in Hrun.
    destruct (validate' now data db) as [e|f] eqn:Hv; [done|].
    assert (Hf : f_timestamp f = now).
    { unfold validate in Hv. rewrite Hts in Hv. cbn [default datetime_field] in Hv.
      repeat match type of Hv with
      | (if ?c then _ else _) = _ => destruct c; [discriminate|]
      | match ?x with _ => _ end = _ => destruct x; try discriminate
      end.
      by injection Hv as <-. }
    unfold atomic in Hrun.
    pose proof (collect_body_outcome faults now f db) as Hout.
    destruct (collect_body faults now f db) as [[e|r0] db0]; [done|].
    injection Hrun as -> ->.
    destruct Hout as (Hm & Hi & _). rewrite Hi, Hm. cbn. done.
Qed.

End IngestionProperties.

Lemma C5_all_in_zone_witness :
  (generate_alerts (reading 24 50 500 55 400) (uniform_scores 100) = [] /\
   statut (derived_indice (reading 24 50 500 55 400) 1) = Statut.comfort) /\
  (exists r db',
     collect_measurement reject reject reject no_fault 1000
       (request None None 24 50 500 55 400) one_room = (inr r, db') /\
     resp_alertes r = [] /\
     alertes db' = alertes one_room /\
     statut (resp_indice_confort r) = Statut.comfort).
Proof.
  split.
  - apply (proj1 (C5_all_in_zone reject reject reject)).
    intros p. destruct p; simpl; lra.
  - eexists _, _. split; [vm_compute; reflexivity|].
    eapply (proj2 (C5_all_in_zone reject reject reject) no_fault 1000%Z
              (request None None 24 50 500 55 400) one_room).
    + vm_compute. reflexivity.
    + intros p. destruct p; simpl; lra.
Defined.

(** C6 as the specification words it fails: a request without
    [salle_id] is ingested into room 1 when that room exists, so a missing
    room reference does not make the pipeline fail. *)
Lemma C6_counterexample :
  ~ (request None None 24 50 500 55 400 !! "salle_id" = None ->
     exists e,
       collect_measurement reject reject reject no_fault 1000
         (request None None 24 50 500 55 400) one_room = (inl e, one_room)).
Proof.
  intros H. destruct (H eq_refl) as [e He].
  vm_compute in He. discriminate He.
Qed.

Lemma C6_validation_rejects_witness :
  (exists e,
     validate reject reject reject 1000
       (request (Some (PyInt 7)) None 24 50 500 55 400) one_room = inl e /\
     collect_measurement reject reject reject no_fault 1000
       (request (Some (PyInt 7)) None 24 50 500 55 400) one_room = (inl e, one_room)) /\
  (exists r db',
     collect_measurement reject reject reject no_fault 1000
       (request None None 24 50 500 55 400) one_room = (inr r, db') /\
     mesure_timestamp (resp_mesure r) = 1000%Z /\
     indice_timestamp (resp_indice_confort r) = 1000%Z).
Proof.
  split.
  - apply (proj1 (C6_validation_rejects reject reject reject no_fault 1000
                    (request (Some (PyInt 7)) None 24 50 500 55 400) one_room)).
    right. intros pk Hpk. vm_compute in Hpk. injection Hpk as <-.
    intros Hin. apply list_elem_of_singleton in Hin. discriminate Hin.
  - eexists _, _. split; [vm_compute; reflexivity|].
    eapply (proj2 (C6_validation_rejects reject reject reject no_fault 1000
                     (request None None 24 50 500 55 400) one_room) eq_refl).
    vm_compute. reflexivity.
Defined.

Lemma C7_atomic_ingestion_witness :
  reachable reject reject reject after_one_reading /\
  exists i, i ∈ indices after_one_reading /\ indice_mesure i = 1%Z.
Proof.
  assert (Hr : reachable reject reject reject after_one_reading).
  { unfold after_one_reading. apply reachable_collect. apply reachable_init. }
  split; [exact Hr|].
  destruct (proj2 (C7_atomic_ingestion reject reject reject) _ Hr) as [_ H].
  apply (H (mesure_row 1 {| f_salle := 1; f_temperature := 30; f_humidite := 50;
                            f_air := 500; f_bruit := 55; f_luminosite := 400;
                            f_timestamp := 1000 |})).
  vm_compute. constructor.
Defined.

(** The storage layer fails after the measurement has been written and
    before the comfort index is: nothing is left in the store. *)
Example failure_between_measurement_and_index :
  collect_measurement reject reject reject (fault_at 1) 1000
    (request None None 30 50 500 55 400) one_room = (inl DatabaseError, one_room).
Proof. reflexivity. Qed.

(** Inside the block, at the moment of that failure, the measurement is in
    the store without its index: the roll-back of [atomic] is what removes
    it. *)
Example partial_write_before_rollback :
  exists e db',
    collect_body (fault_at 1) 1000
      {| f_salle := 1; f_temperature := 30; f_humidite := 50; f_air := 500;
         f_bruit := 55; f_luminosite := 400; f_timestamp := 1000 |} one_room
    = (inl e, db') /\
    length (mesures db') = 1%nat /\ indices db' = [].
Proof. eexists _, _. split; [vm_compute; reflexivity|]. split; reflexivity. Qed.

(** The same for a failure while the alert is written. *)
Example failure_on_alert_write :
  collect_measurement reject reject reject (fault_at 2) 1000
    (request None None 30 50 500 55 400) one_room = (inl DatabaseError, one_room).
Proof. reflexivity. Qed.

(** The end-to-end scenario of the specification: 30 degrees, everything
    else in its zone. *)
Example end_to_end_scenario :
  exists r db',
    collect_measurement reject reject reject no_fault 1000
      (request (Some (PyInt 1)) None 30 50 500 55 400) one_room = (inr r, db') /\
    score_temperature (resp_indice_confort r) == 60 /\
    score_global (resp_indice_confort r) == 90 /\
    statut (resp_indice_confort r) = Statut.comfort /\
    Forall2 (persists 1 1000) [spec_candidate temperature 30 Niveau.warning] (resp_alertes r) /\
    alert_seuil (spec_candidate temperature 30 Niveau.warning) = 26%Z.
Proof.
  eexists _, _. split; [vm_compute; reflexivity|].
  cbn. repeat split. constructor; [|constructor]. repeat split.
Qed.

(** ** Evolution *)

(** *** SQL aggregates *)

Lemma Qmin_cases x y : Qmin x y = x \/ Qmin x y = y.
Proof.
  unfold Qmin, GenericMinMax.gmin. destruct (x ?= y); auto.
Qed.

Lemma Qmax_cases x y : Qmax x y = x \/ Qmax x y = y.
Proof.
  unfold Qmax, GenericMinMax.gmax. destruct (x ?= y); auto.
Qed.

Lemma foldl_Qmin l : forall acc,
  foldl Qmin acc l ∈ acc :: l /\
  forall x, x ∈ acc :: l -> foldl Qmin acc l <= x.
Proof.
  induction l as [|y l IH]; intros acc; cbn [foldl].
  - split; [left|]. intros x Hx. apply list_elem_of_singleton in Hx. subst. lra.
  - destruct (IH (Qmin acc y)) as [Hin Hle]. split.
    + apply elem_of_cons in Hin as [Hin|Hin].
      * rewrite Hin. destruct (Qmin_cases acc y) as [->| ->]; [left|right; left].
      * right. by right.
    + intros x Hx.
      assert (Hm : foldl Qmin (Qmin acc y) l <= Qmin acc y) by (apply Hle; left).
      apply elem_of_cons in Hx as [->|Hx].
      * pose proof (Q.le_min_l acc y). lra.
      * apply elem_of_cons in Hx as [->|Hx].
        -- pose proof (Q.le_min_r acc y). lra.
        -- apply Hle. by right.
Qed.

Lemma foldl_Qmax l : forall acc,
  foldl Qmax acc l ∈ acc :: l /\
  forall x, x ∈ acc :: l -> x <= foldl Qmax acc l.
Proof.
  induction l as [|y l IH]; intros acc; cbn [foldl].
  - split; [left|]. intros x Hx. apply list_elem_of_singleton in Hx. subst. lra.
  - destruct (IH (Qmax acc y)) as [Hin Hle]. split.
    + apply elem_of_cons in Hin as [Hin|Hin].
      * rewrite Hin. destruct (Qmax_cases acc y) as [->| ->]; [left|right; left].
      * right. by right.
    + intros x Hx.
      assert (Hm : Qmax acc y <= foldl Qmax (Qmax acc y) l) by (apply Hle; left).
      apply elem_of_cons in Hx as [->|Hx].
      * pose proof (Q.le_max_l acc y). lra.
      * apply elem_of_cons in Hx as [->|Hx].
        -- pose proof (Q.le_max_r acc y). lra.
        -- apply Hle. by right.
Qed.

Lemma sql_min_minimum l : l <> [] -> is_minimum (sql_min l) l.
Proof.
  destruct l as [|x l]; [done|]. intros _.
  destruct (foldl_Qmin l x) as [Hin Hle]. exists (foldl Qmin x l). done.
Qed.

Lemma sql_max_maximum l : l <> [] -> is_maximum (sql_max l) l.
Proof.
  destruct l as [|x l]; [done|]. intros _.
  destruct (foldl_Qmax l x) as [Hin Hle]. exists (foldl Qmax x l). done.
Qed.

Lemma sql_avg_average l : l <> [] -> is_average (sql_avg l) l.
Proof.
  destruct l as [|x l]; [done|]. intros Hne.
  eexists. split; [reflexivity|]. split; [done|].
  set (n := inject_Z (Z.of_nat (length (x :: l)))).
  assert (Hn : ~ n == 0).
  { unfold n. cbn [length]. rewrite Nat2Z.inj_succ.
    intros H. unfold Qeq in H. cbn in H. lia. }
  field. exact Hn.
Qed.

Lemma foldl_Zmin l : forall a,
  (foldl Z.min a l ≤ a)%Z /\ forall t, t ∈ l -> (foldl Z.min a l ≤ t)%Z.
Proof.
  induction l as [|y l IH]; intros a; cbn [foldl].
  - split; [lia|]. intros t Ht. by apply elem_of_nil in Ht.
  - destruct (IH (a `min` y)%Z) as [Ha Hl]. split; [lia|].
    intros t Ht. apply elem_of_cons in Ht as [->|Ht]; [lia|by apply Hl].
Qed.

Lemma min_ts_lower l e : min_ts l = Some e -> forall t, t ∈ l -> (e ≤ t)%Z.
Proof.
  destruct l as [|x l]; [done|]. intros [= <-] t Ht.
  destruct (foldl_Zmin l x) as [Hx Hl].
  apply elem_of_cons in Ht as [->|Ht]; [done|by apply Hl].
Qed.

Lemma min_ts_None l : min_ts l = None -> l = [].
Proof. by destruct l. Qed.

(** *** Truncation and buckets *)

Lemma period_delta_pos pn : (0 < period_delta pn)%Z.
Proof.
  unfold period_delta. destruct (String.eqb pn "hour"); lia.
Qed.

Lemma trunc_func_bounds pn t :
  (trunc_func pn t ≤ t)%Z /\ (t < trunc_func pn t + period_delta pn)%Z.
Proof.
  unfold trunc_func.
  pose proof (Z.mod_pos_bound t (period_delta pn) (period_delta_pos pn)). lia.
Qed.

Lemma trunc_func_aligned pn t : (trunc_func pn t mod period_delta pn = 0)%Z.
Proof.
  unfold trunc_func. pose proof (period_delta_pos pn) as Hd.
  rewrite Zminus_mod_idemp_r, Z.sub_diag. apply Z.mod_0_l. lia.
Qed.

(** A timestamp lies in the interval of an aligned key exactly when it
    truncates to that key. *)
Lemma trunc_func_unique pn p t :
  (p mod period_delta pn = 0)%Z ->
  (p ≤ t)%Z /\ (t < p + period_delta pn)%Z <-> trunc_func pn t = p.
Proof.
  intros Hp. pose proof (period_delta_pos pn) as Hd. split.
  - intros [H1 H2]. unfold trunc_func.
    apply Z.mod_divide in Hp as [k ->]; [|lia].
    assert (Hq : (t mod period_delta pn = t - k * period_delta pn)%Z).
    { symmetry. apply (Z.mod_unique_pos _ _ k); lia. }
    lia.
  - intros <-. apply trunc_func_bounds.
Qed.

Lemma in_bucket_trunc pn p i :
  (p mod period_delta pn = 0)%Z ->
  in_bucket pn p i <-> trunc_func pn (indice_timestamp i) = p.
Proof.
  intros Hp. unfold in_bucket. by apply trunc_func_unique.
Qed.

(** *** The keys of the groups *)

Lemma periods_of_elem pn qs k :
  k ∈ periods_of pn qs <-> exists i, i ∈ qs /\ trunc_func pn (indice_timestamp i) = k.
Proof.
  unfold periods_of. rewrite merge_sort_Permutation, elem_of_remove_dups.
  rewrite list_elem_of_fmap. split; intros (i & H1 & H2); exists i; cbn in *; done.
Qed.

Lemma StronglySorted_le_lt (l : list Z) :
  StronglySorted Z.le l -> NoDup l -> StronglySorted Z.lt l.
Proof.
  induction 1 as [|x l Hs IH Hall]; intros Hnd; constructor.
  - apply IH. by apply NoDup_cons_1_2 in Hnd.
  - apply NoDup_cons in Hnd as [Hx _].
    rewrite Forall_forall in Hall |- *. intros y Hy.
    specialize (Hall y Hy). assert (x <> y) by (intros ->; done). lia.
Qed.

Lemma periods_of_sorted pn qs : StronglySorted Z.lt (periods_of pn qs).
Proof.
  unfold periods_of. apply StronglySorted_le_lt.
  - apply StronglySorted_merge_sort; apply _.
  - rewrite merge_sort_Permutation. apply NoDup_remove_dups.
Qed.

(** *** The latest row of a bucket *)

#[local] Instance later_first_trans : Transitive later_first.
Proof. intros a b c. unfold later_first. lia. Qed.

#[local] Instance later_first_total : Total later_first.
Proof. intros a b. unfold later_first. lia. Qed.

Lemma head_order_by_timestamp_desc l :
  l <> [] ->
  exists r, head (order_by_timestamp_desc l) = Some r /\ is_latest r l.
Proof.
  intros Hne. unfold order_by_timestamp_desc.
  pose proof (StronglySorted_merge_sort later_first l) as Hs.
  pose proof (merge_sort_Permutation later_first l) as Hp.
  destruct (merge_sort later_first l) as [|r l'] eqn:E.
  - apply Permutation_nil_l in Hp. done.
  - exists r. split; [done|]. split.
    + rewrite <- Hp. left.
    + intros i Hi. rewrite <- Hp in Hi.
      apply StronglySorted_inv in Hs as [_ Hall].
      apply elem_of_cons in Hi as [->|Hi]; [lia|].
      rewrite Forall_forall in Hall. by apply Hall.
Qed.

(** *** The rows *)

Lemma filter_ext_elem {A} (P1 P2 : A -> Prop)
    `{!forall x, Decision (P1 x), !forall x, Decision (P2 x)} (l : list A) :
  (forall x, x ∈ l -> P1 x <-> P2 x) -> filter P1 l = filter P2 l.
Proof.
  induction l as [|x l IH]; intros Hext; [done|].
  rewrite !filter_cons.
  rewrite IH by (intros y Hy; apply Hext; by right).
  destruct (decide (P1 x)) as [H1|H1], (decide (P2 x)) as [H2|H2]; try done.
  - exfalso. apply H2, Hext; [left|done].
  - exfalso. apply H1, Hext; [left|done].
Qed.

(** The query set is the history up to the time of the query: the lower
    bound [start_date] is the earliest timestamp of the history itself. *)
Lemma get_comfort_evolution_rows now db salle pn :
  salle <> 0%Z ->
  get_comfort_evolution now db salle pn =
  inr (evolution_row db salle pn (history_until now db salle) <$>
         periods_of pn (history_until now db salle)).
Proof.
  intros Hs. unfold get_comfort_evolution, history_until.
  destruct (Z.eqb_spec salle 0) as [|_]; [done|].
  destruct (min_ts _) as [e|] eqn:He.
  - f_equal.
    rewrite (filter_ext_elem
               (λ i, (e ≤ indice_timestamp i)%Z /\ (indice_timestamp i ≤ now)%Z)
               (λ i, (indice_timestamp i ≤ now)%Z)); [done|].
    intros i Hi. split; [by intros [_ ?]|]. intros Hn. split; [|done].
    eapply min_ts_lower; [exact He|]. by apply list_elem_of_fmap_2.
  - apply min_ts_None in He. apply fmap_nil_inv in He. rewrite He. reflexivity.
Qed.

Lemma group_of_bucket now db salle pn p :
  (p mod period_delta pn = 0)%Z ->
  group_of pn (history_until now db salle) p =
  records_in_bucket_until now db salle pn p.
Proof.
  intros Hp. unfold group_of, history_until, records_in_bucket_until.
  rewrite list_filter_filter. apply list_filter_iff.
  intros i. by rewrite in_bucket_trunc.
Qed.

Lemma records_in_bucket_none_after now db salle pn p :
  none_after now db salle pn p ->
  records_in_bucket db salle pn p = records_in_bucket_until now db salle pn p.
Proof.
  intros H. unfold records_in_bucket, records_in_bucket_until.
  apply filter_ext_elem. intros i Hi. split; [|by intros [? _]].
  intros Hb. split; [done|]. apply H. by apply list_elem_of_filter.
Qed.

Lemma row_min_evolution_row c db salle pn qs p :
  row_min c (evolution_row db salle pn qs p) = sql_min (column_value c <$> group_of pn qs p).
Proof. by destruct c. Qed.

Lemma row_max_evolution_row c db salle pn qs p :
  row_max c (evolution_row db salle pn qs p) = sql_max (column_value c <$> group_of pn qs p).
Proof. by destruct c. Qed.

Lemma row_avg_evolution_row c db salle pn qs p :
  row_avg c (evolution_row db salle pn qs p) = sql_avg (column_value c <$> group_of pn qs p).
Proof. by destruct c. Qed.

Lemma row_current_evolution_row c db salle pn qs p :
  row_current c (evolution_row db salle pn qs p) =
  column_value c <$> head (order_by_timestamp_desc (records_in_bucket db salle pn p)).
Proof. by destruct c. Qed.

(** Every emitted row is keyed by the truncated timestamp of a record of
    the history up to the time of the query. *)
Lemma evolution_row_key now db salle pn row :
  row ∈ evolution_row db salle pn (history_until now db salle) <$>
          periods_of pn (history_until now db salle) ->
  row = evolution_row db salle pn (history_until now db salle) (period row) /\
  exists i, i ∈ history_until now db salle /\
            trunc_func pn (indice_timestamp i) = period row.
Proof.
  intros H. apply list_elem_of_fmap in H as (p & -> & Hp).
  split; [done|]. by apply periods_of_elem in Hp.
Qed.

Lemma is_minimum_singleton o v : is_minimum o [v] -> o = Some v.
Proof.
  intros (m & -> & Hm & _). apply list_elem_of_singleton in Hm. by subst.
Qed.

Lemma is_maximum_singleton o v : is_maximum o [v] -> o = Some v.
Proof.
  intros (m & -> & Hm & _). apply list_elem_of_singleton in Hm. by subst.
Qed.

Lemma is_average_singleton o v : is_average o [v] -> exists a, o = Some a /\ a == v.
Proof.
  intros (a & -> & _ & Ha). exists a. split; [done|].
  change (a * 1 == v + 0) in Ha. lra.
Qed.

Lemma period_evolution_row db salle pn qs p :
  period (evolution_row db salle pn qs p) = p.
Proof. reflexivity. Qed.

Lemma bucket_until_elem now db salle pn i :
  i ∈ history_until now db salle ->
  i ∈ records_in_bucket_until now db salle pn (trunc_func pn (indice_timestamp i)).
Proof.
  intros Hi. apply list_elem_of_filter in Hi as [Hn Hi].
  apply list_elem_of_filter. split; [|done]. split; [|done].
  apply in_bucket_trunc; [apply trunc_func_aligned|done].
Qed.

(** C8, as the code has it.  For a room (a non-zero key) the call returns
    a list of rows; it is empty when the room has no history.  Each row
    stands for a bucket that holds at least one record dated no later
    than the time of the query, and for each of the six columns its
    minimum, maximum and average are those of the records of the bucket
    dated no later than the time of the query.  When no record of the
    bucket is dated after the time of the query, the six current values
    are the six columns of one record with the latest timestamp in the
    bucket; if moreover the bucket holds a single record, minimum,
    maximum, average and current all equal that record's value. *)
Theorem C8_evolution_aggregates now db salle pn :
  salle <> 0%Z ->
  exists rows,
    get_comfort_evolution now db salle pn = inr rows /\
    (indices_of_salle db salle = [] -> rows = []) /\
    forall row, row ∈ rows ->
      records_in_bucket_until now db salle pn (period row) <> [] /\
      (forall c,
         is_minimum (row_min c row)
           (column_value c <$> records_in_bucket_until now db salle pn (period row)) /\
         is_maximum (row_max c row)
           (column_value c <$> records_in_bucket_until now db salle pn (period row)) /\
         is_average (row_avg c row)
           (column_value c <$> records_in_bucket_until now db salle pn (period row))) /\
      (none_after now db salle pn (period row) ->
       exists r,
         is_latest r (records_in_bucket db salle pn (period row)) /\
         forall c, row_current c row = Some (column_value c r)) /\
      (forall r,
         records_in_bucket_until now db salle pn (period row) = [r] ->
         none_after now db salle pn (period row) ->
         forall c,
           row_min c row = Some (column_value c r) /\
           row_max c row = Some (column_value c r) /\
           (exists a, row_avg c row = Some a /\ a == column_value c r) /\
           row_current c row = Some (column_value c r)).
Proof.
  intros Hs. eexists. split; [by apply get_comfort_evolution_rows|].
  split.
  { intros He. unfold history_until. rewrite He. reflexivity. }
  intros row Hrow.
  apply list_elem_of_fmap in Hrow as (p & -> & Hp).
  apply periods_of_elem in Hp as (i & Hi & Htr).
  rewrite period_evolution_row.
  assert (Hal : (p mod period_delta pn = 0)%Z).
  { rewrite <- Htr. apply trunc_func_aligned. }
  assert (Hne : records_in_bucket_until now db salle pn p <> []).
  { intros He. pose proof (bucket_until_elem now db salle pn i Hi) as Hin.
    rewrite Htr, He in Hin. by apply elem_of_nil in Hin. }
  assert (Hvals : forall c, column_value c <$> records_in_bucket_until now db salle pn p <> []).
  { intros c He. by apply fmap_nil_inv in He. }
  assert (Hagg : forall c,
    is_minimum (row_min c (evolution_row db salle pn (history_until now db salle) p))
      (column_value c <$> records_in_bucket_until now db salle pn p) /\
    is_maximum (row_max c (evolution_row db salle pn (history_until now db salle) p))
      (column_value c <$> records_in_bucket_until now db salle pn p) /\
    is_average (row_avg c (evolution_row db salle pn (history_until now db salle) p))
      (column_value c <$> records_in_bucket_until now db salle pn p)).
  { intros c.
    rewrite row_min_evolution_row, row_max_evolution_row, row_avg_evolution_row.
    rewrite group_of_bucket by done.
    split; [by apply sql_min_minimum|].
    split; [by apply sql_max_maximum|by apply sql_avg_average]. }
  assert (Hcur : none_after now db salle pn p ->
    exists r, is_latest r (records_in_bucket db salle pn p) /\
      forall c, row_current c (evolution_row db salle pn (history_until now db salle) p) =
                Some (column_value c r)).
  { intros Hna.
    destruct (head_order_by_timestamp_desc (records_in_bucket db salle pn p))
      as (r & Hhead & Hlatest).
    - by rewrite (records_in_bucket_none_after now).
    - exists r. split; [done|]. intros c.
      by rewrite row_current_evolution_row, Hhead. }
  split; [done|]. split; [done|]. split; [done|].
  intros r Hone Hna c.
  destruct (Hagg c) as (Hmin & Hmax & Havg). rewrite Hone in Hmin, Hmax, Havg.
  destruct (Hcur Hna) as (r' & [Hin _] & Hc).
  rewrite (records_in_bucket_none_after now), Hone in Hin by done.
  apply list_elem_of_singleton in Hin. subst r'.
  split; [by apply is_minimum_singleton|].
  split; [by apply is_maximum_singleton|].
  split; [by apply is_average_singleton|done].
Qed.

Lemma periods_of_NoDup pn qs : NoDup (periods_of pn qs).
Proof.
  unfold periods_of. rewrite merge_sort_Permutation. apply NoDup_remove_dups.
Qed.

Lemma periods_of_aligned pn qs k :
  k ∈ periods_of pn qs -> (k mod period_delta pn = 0)%Z.
Proof.
  intros H. apply periods_of_elem in H as (i & _ & <-). apply trunc_func_aligned.
Qed.

Lemma StronglySorted_lookup_lt {A} (R : relation A) (l : list A) :
  StronglySorted R l ->
  forall j1 j2 a b, l !! j1 = Some a -> l !! j2 = Some b -> (j1 < j2)%nat -> R a b.
Proof.
  induction 1 as [|x l Hs IH Hall]; intros j1 j2 a b H1 H2 Hlt.
  - done.
  - destruct j2 as [|j2]; [lia|]. cbn in H2.
    destruct j1 as [|j1]; cbn in H1.
    + injection H1 as <-. rewrite Forall_forall in Hall.
      apply Hall. by eapply list_elem_of_lookup_2.
    + eapply IH; [done..|lia].
Qed.

Lemma aligned_keys_apart d k1 k2 :
  (0 < d)%Z -> (k1 mod d = 0)%Z -> (k2 mod d = 0)%Z -> (k1 < k2)%Z -> (k1 + d ≤ k2)%Z.
Proof.
  intros Hd H1 H2 Hlt.
  apply Z.mod_divide in H1 as [a ->]; [|lia].
  apply Z.mod_divide in H2 as [b ->]; [|lia].
  apply Z.mul_lt_mono_pos_r in Hlt; [|done].
  assert (Hab : (a + 1 ≤ b)%Z) by lia.
  apply (Z.mul_le_mono_nonneg_r _ _ d) in Hab; lia.
Qed.

Lemma evolution_rows_keys db salle pn qs (ks : list Z) :
  period <$> (evolution_row db salle pn qs <$> ks) = ks.
Proof.
  rewrite <- list_fmap_compose. rewrite <- (list_fmap_id ks) at 2.
  apply list_fmap_ext. intros j k _. reflexivity.
Qed.

(** C9, as the code has it.  The rows are keyed by timestamps truncated
    to the hour or the day, each key being the truncation of a record of
    the history dated no later than the time of the query (so no row
    stands for an empty bucket); the keys come in strictly ascending
    order and the intervals of two rows never overlap; every record of
    the history dated no later than the time of the query falls in the
    interval of exactly one row. *)
Theorem C9_evolution_buckets now db salle pn :
  salle <> 0%Z ->
  exists rows,
    get_comfort_evolution now db salle pn = inr rows /\
    (forall row, row ∈ rows ->
       (period row mod period_delta pn = 0)%Z /\
       exists i, i ∈ indices_of_salle db salle /\
                 (indice_timestamp i ≤ now)%Z /\
                 period row = trunc_func pn (indice_timestamp i)) /\
    StronglySorted Z.lt (period <$> rows) /\
    (forall j1 j2 r1 r2,
       rows !! j1 = Some r1 -> rows !! j2 = Some r2 -> (j1 < j2)%nat ->
       (period r1 + period_delta pn ≤ period r2)%Z) /\
    (forall i,
       i ∈ indices_of_salle db salle -> (indice_timestamp i ≤ now)%Z ->
       exists j row,
         rows !! j = Some row /\
         in_bucket pn (period row) i /\
         forall j' row',
           rows !! j' = Some row' -> in_bucket pn (period row') i -> j' = j).
Proof.
  intros Hs. eexists. split; [by apply get_comfort_evolution_rows|].
  set (qs := history_until now db salle).
  assert (Hkey : forall j row,
    (evolution_row db salle pn qs <$> periods_of pn qs) !! j = Some row ->
    periods_of pn qs !! j = Some (period row)).
  { intros j row H. rewrite list_lookup_fmap in H.
    destruct (periods_of pn qs !! j) as [k|]; [|done]. by injection H as <-. }
  split; [|split; [|split]].
  - intros row Hrow. apply list_elem_of_fmap in Hrow as (p & -> & Hp).
    rewrite period_evolution_row. split; [by eapply periods_of_aligned|].
    apply periods_of_elem in Hp as (i & Hi & Htr).
    apply list_elem_of_filter in Hi as [Hn Hi]. eauto.
  - rewrite evolution_rows_keys. apply periods_of_sorted.
  - intros j1 j2 r1 r2 H1 H2 Hlt. apply Hkey in H1, H2.
    apply aligned_keys_apart.
    + apply period_delta_pos.
    + eapply periods_of_aligned, list_elem_of_lookup_2, H1.
    + eapply periods_of_aligned, list_elem_of_lookup_2, H2.
    + by eapply (StronglySorted_lookup_lt _ _ (periods_of_sorted pn qs)).
  - intros i Hi Hn.
    assert (Hq : i ∈ qs) by (apply list_elem_of_filter; done).
    assert (Hk : trunc_func pn (indice_timestamp i) ∈ periods_of pn qs).
    { apply periods_of_elem. eauto. }
    apply list_elem_of_lookup_1 in Hk as [j Hj].
    exists j, (evolution_row db salle pn qs (trunc_func pn (indice_timestamp i))).
    split; [by rewrite list_lookup_fmap, Hj|].
    rewrite period_evolution_row. split.
    + apply in_bucket_trunc; [apply trunc_func_aligned|done].
    + intros j' row' Hrow' Hin. apply Hkey in Hrow'.
      apply in_bucket_trunc in Hin.
      * rewrite <- Hin in Hrow'.
        by eapply NoDup_lookup; [apply periods_of_NoDup|..].
      * eapply periods_of_aligned, list_elem_of_lookup_2, Hrow'.
Qed.

(** At 12:00 the day bucket of [two_readings] holds the 10:00 record; the
    23:00 record lies in the same interval but after the time of the
    query.  The row's maximum is that of the 10:00 record alone, its
    current value that of the 23:00 record: whatever records one takes the
    bucket to hold, the maximum is not their maximum or the current value
    is not the value of their latest record. *)
Lemma C8_counterexample :
  ~ (forall rows,
       get_comfort_evolution 43200 two_readings 1 "day" = inr rows ->
       forall row, row ∈ rows ->
         exists recs r,
           is_maximum (row_max col_score_global row)
             (column_value col_score_global <$> recs) /\
           is_latest r recs /\
           row_current col_score_global row = Some (column_value col_score_global r)).
Proof.
  intros H.
  destruct (get_comfort_evolution 43200 two_readings 1 "day") as [e|rows] eqn:E;
    vm_compute in E; [discriminate E|].
  injection E as <-.
  destruct (H _ eq_refl _ ltac:(left)) as (recs & r & (m & Hm & _ & Hle) & [Hin _] & Hcur).
  cbn in Hm, Hcur. injection Hm as <-. injection Hcur as Hc.
  specialize (Hle _ (list_elem_of_fmap_2 (column_value col_score_global) _ _ Hin)).
  cbn [column_value] in Hle. rewrite <- Hc in Hle. revert Hle. clear. intros Hle. lra.
Qed.

Lemma C8_evolution_aggregates_witness :
  exists rows row r,
    get_comfort_evolution 90000 two_readings 1 "day" = inr rows /\
    row ∈ rows /\
    is_latest r (records_in_bucket two_readings 1 "day" (period row)) /\
    row_current col_score_global row = Some (column_value col_score_global r).
Proof.
  destruct (C8_evolution_aggregates 90000 two_readings 1 "day") as (rows & E & _ & Hrows);
    [lia|].
  pose proof E as E'. vm_compute in E'. injection E' as <-.
  match type of Hrows with
  | forall row, row ∈ [?row0] -> _ =>
      destruct (Hrows row0 ltac:(left)) as (_ & _ & Hcur & _)
  end.
  destruct Hcur as (r & Hl & Hc).
  - intros i Hi. cbn [period] in Hi.
    remember (records_in_bucket two_readings 1 "day" 0) as l eqn:El.
    vm_compute in El. subst l.
    repeat (apply elem_of_cons in Hi as [->|Hi]; [cbn; lia|]).
    by apply elem_of_nil in Hi.
  - eexists _, _, r. split; [exact E|]. split; [left|]. split; [exact Hl|exact (Hc _)].
Defined.

(** At 12:00, by the hour, the only row of [two_readings] is that of the
    10:00 record: the 23:00 record of the history falls in no emitted
    bucket. *)
Lemma C9_counterexample :
  ~ (forall rows,
       get_comfort_evolution 43200 two_readings 1 "hour" = inr rows ->
       forall i, i ∈ indices_of_salle two_readings 1 ->
         exists row, row ∈ rows /\ in_bucket "hour" (period row) i).
Proof.
  intros H.
  destruct (get_comfort_evolution 43200 two_readings 1 "hour") as [e|rows] eqn:E;
    vm_compute in E; [discriminate E|].
  injection E as <-. specialize (H _ eq_refl).
  remember (indices_of_salle two_readings 1) as l eqn:El.
  vm_compute in El. subst l.
  match type of H with
  | forall i, i ∈ [_; ?i2] -> _ =>
      destruct (H i2 ltac:(right; left)) as (row & Hrow & [_ Hhi])
  end.
  apply list_elem_of_singleton in Hrow. subst row.
  vm_compute in Hhi. discriminate Hhi.
Qed.

Lemma C9_evolution_buckets_witness :
  exists rows,
    get_comfort_evolution 90000 two_readings 1 "hour" = inr rows /\
    StronglySorted Z.lt (period <$> rows) /\
    length rows = 2%nat.
Proof.
  destruct (C9_evolution_buckets 90000 two_readings 1 "hour") as (rows & E & _ & Hs & _);
    [lia|].
  exists rows. split; [exact E|]. split; [exact Hs|].
  vm_compute in E. by injection E as <-.
Defined.

(** ** The literals of the specification on IEEE binary64 *)

(** Five scores of 100 give exactly 100.0, five scores of 0 exactly 0.0,
    and the end-to-end scenario exactly 90.0. *)
Example b64_global_score_literals :
  (b64_calculate_global_score 100 100 100 100 100 =? 100)%float = true /\
  (b64_calculate_global_score 0 0 0 0 0 =? 0)%float = true /\
  (b64_calculate_global_score 60 100 100 100 100 =? 90)%float = true.
Proof. repeat split; vm_compute; reflexivity. Qed.

Example b64_status_literals :
  b64_determine_status 70 = Statut.comfort /\
  b64_determine_status 69.999 = Statut.warning /\
  b64_determine_status 40 = Statut.warning /\
  b64_determine_status 39.999 = Statut.danger.
Proof. repeat split; vm_compute; reflexivity. Qed.

Example b64_score_literals :
  (b64_calculate_parameter_score 30 temperature =? 60)%float = true /\
  (b64_calculate_parameter_score 26 temperature =? 100)%float = true /\
  (b64_calculate_parameter_score 22 temperature =? 100)%float = true /\
  (b64_calculate_parameter_score 10 temperature =? 0)%float = true /\
  (b64_calculate_parameter_score 1000 air =? 100)%float = true.
Proof. repeat split; vm_compute; reflexivity. Qed.

(** A reading inside every zone has five scores of 100.0 whatever its
    values, hence the status comfort on doubles as well. *)
Example b64_all_in_zone_comfort :
  b64_determine_status (b64_calculate_global_score 100 100 100 100 100) = Statut.comfort.
Proof. vm_compute. reflexivity. Qed.

(** * Further properties of the code *)

(** ** Scores and alerts together *)

(** Case analysis on the comparisons of the goal, each result being
    propagated to the facts already collected. *)
Ltac cmp_split :=
  repeat match goal with
  | |- context [Qle_bool ?a ?b] =>
      let E := fresh "E" in
      destruct (Qle_bool a b) eqn:E; rewrite ?E in *; cbv iota in *;
      [apply Qle_bool_iff in E | apply Qle_bool_lt in E]
  | |- context [Qltb ?a ?b] =>
      let E := fresh "E" in
      destruct (Qltb a b) eqn:E; rewrite ?E in *; cbv iota in *;
      [apply Qltb_lt in E | apply Qltb_ge in E]
  | _ : context [Qle_bool ?a ?b] |- _ =>
      let E := fresh "E" in
      destruct (Qle_bool a b) eqn:E; rewrite ?E in *; cbv iota in *;
      [apply Qle_bool_iff in E | apply Qle_bool_lt in E]
  | _ : context [Qltb ?a ?b] |- _ =>
      let E := fresh "E" in
      destruct (Qltb a b) eqn:E; rewrite ?E in *; cbv iota in *;
      [apply Qltb_lt in E | apply Qltb_ge in E]
  end.

(** X1. The score of a parameter never decreases while the value rises
    towards the upper bound of its zone, and never increases while the
    value rises from the lower bound on: the further from the zone, the
    lower the score. *)
Theorem X1_score_unimodal (p : Param) (v v' : Q) :
  v <= v' ->
  ((forall mx, th_max (THRESHOLDS p) = Some mx -> v' <= inject_Z mx) ->
   calculate_parameter_score v p <= calculate_parameter_score v' p) /\
  ((forall mn, th_min (THRESHOLDS p) = Some mn -> inject_Z mn <= v) ->
   calculate_parameter_score v' p <= calculate_parameter_score v p).
Proof.
  intros Hv. split; intros Hb.
  - destruct p; cbn [THRESHOLDS th_max] in Hb; specialize (Hb _ eq_refl);
      unfold calculate_parameter_score, py_max; cbn [THRESHOLDS th_min th_max];
      inj_consts; cmp_split; cbn [andb]; lra.
  - destruct p; cbn [THRESHOLDS th_min] in Hb;
      try specialize (Hb _ eq_refl);
      unfold calculate_parameter_score, py_max; cbn [THRESHOLDS th_min th_max];
      inj_consts; cmp_split; cbn [andb]; lra.
Qed.

Lemma X1_score_unimodal_witness :
  calculate_parameter_score 12 temperature <= calculate_parameter_score 18 temperature /\
  calculate_parameter_score 75 bruit <= calculate_parameter_score 62 bruit.
Proof.
  split.
  - apply (proj1 (X1_score_unimodal temperature 12 18 ltac:(lra))).
    intros mx [= <-]. change (inject_Z 26) with 26. lra.
  - apply (proj2 (X1_score_unimodal bruit 62 75 ltac:(lra))).
    intros mn Hmn. discriminate Hmn.
Defined.

(** X2.  A score is below 100 exactly when the value is outside the zone,
    and it is 0 exactly when the value is 10 units or more outside. *)
Theorem X2_score_extremes (p : Param) (v : Q) :
  (calculate_parameter_score v p < 100 <-> ~ spec_in_zone p v) /\
  (calculate_parameter_score v p == 0 <->
   ~ spec_in_zone p v /\ 10 <= spec_deviation p v).
Proof.
  split.
  - split.
    + intros Hlt Hin. rewrite (score_in_zone p v Hin) in Hlt. lra.
    + intros Hout.
      destruct p; unfold calculate_parameter_score, py_max, spec_in_zone in *;
        cbn [THRESHOLDS th_min th_max]; inj_consts; cmp_cases; cbn [andb];
        try lra; exfalso; apply Hout; lra.
  - destruct (decide (spec_in_zone p v)) as [Hin|Hout].
    + rewrite (score_in_zone p v Hin). split; [intros H; lra|].
      intros [Hn _]. done.
    + rewrite (score_out_of_zone p v Hout).
      assert (Hd : 0 <= spec_deviation p v).
      { destruct p; unfold spec_deviation;
          repeat match goal with
          | |- context [Qabs ?x] => pose proof (Qabs_nonneg x); generalize dependent (Qabs x); intros
          end; try apply Q.min_glb; lra. }
      split.
      * intros H. split; [done|].
        destruct (Q.max_spec 0 (100 - spec_deviation p v * 10)) as [[H1 H2]|[H1 H2]];
          rewrite H2 in H; lra.
      * intros [_ H]. apply Q.max_l. lra.
Qed.

Lemma score_lt_100_out p v :
  calculate_parameter_score v p < 100 <-> ~ spec_in_zone p v.
Proof.
  split.
  - intros Hlt Hin. rewrite (score_in_zone p v Hin) in Hlt. lra.
  - intros Hout.
    destruct p; unfold calculate_parameter_score, py_max, spec_in_zone in *;
      cbn [THRESHOLDS th_min th_max]; inj_consts; cmp_cases; cbn [andb];
      try lra; exfalso; apply Hout; lra.
Qed.

Lemma elem_of_generate_alerts mesure scores a :
  a ∈ generate_alerts mesure scores <->
  a ∈ alert_step [] (alert_type a, param_value mesure (alert_type a)).
Proof.
  rewrite <- (filter_generate_alerts mesure scores), list_elem_of_filter. tauto.
Qed.

(** X3.  The alert list and the scores agree: a parameter has a candidate
    in the list exactly when its score is below 100. *)
Theorem X3_alert_iff_score_below_100 (mesure : Mesure) (scores : Scores) (p : Param) :
  (exists a, a ∈ generate_alerts mesure scores /\ alert_type a = p) <->
  calculate_parameter_score (param_value mesure p) p < 100.
Proof.
  rewrite score_lt_100_out. split.
  - intros (a & Ha & <-) Hin. apply elem_of_generate_alerts in Ha.
    rewrite alert_step_in_zone in Ha by done. by apply elem_of_nil in Ha.
  - intros Hout. destruct (alert_step_out_of_zone p _ Hout) as (nv & Hs & _).
    exists (spec_candidate p (param_value mesure p) nv). split; [|done].
    apply elem_of_generate_alerts. cbn [spec_candidate alert_type].
    rewrite Hs. left.
Qed.

(** X4.  The level of a candidate and the score of its parameter agree.
    For temperature, humidity and light the level is warning exactly when
    the score is at least 50; for noise and air a danger level means a
    score of 0.  No candidate goes with a score of 100. *)
Theorem X4_level_and_score (mesure : Mesure) (scores : Scores) (a : AlertData) :
  a ∈ generate_alerts mesure scores ->
  alert_valeur a = param_value mesure (alert_type a) /\
  calculate_parameter_score (alert_valeur a) (alert_type a) < 100 /\
  (th_min (THRESHOLDS (alert_type a)) <> None ->
   (alert_niveau a = Niveau.warning <->
    50 <= calculate_parameter_score (alert_valeur a) (alert_type a))) /\
  (th_min (THRESHOLDS (alert_type a)) = None ->
   alert_niveau a = Niveau.danger ->
   calculate_parameter_score (alert_valeur a) (alert_type a) == 0).
Proof.
  intros Ha. apply elem_of_generate_alerts in Ha.
  remember (alert_type a) as p eqn:Hp.
  remember (param_value mesure p) as v eqn:Hv. clear Hv.
  unfold alert_step, check_threshold in Ha.
  destruct p; cbn [THRESHOLDS th_min th_max] in *;
    change (inject_Z (22 - 5)) with 17 in Ha; change (inject_Z (26 + 5)) with 31 in Ha;
    change (inject_Z (40 - 5)) with 35 in Ha; change (inject_Z (60 + 5)) with 65 in Ha;
    change (inject_Z (300 - 5)) with 295 in Ha; change (inject_Z (500 + 5)) with 505 in Ha;
    change (inject_Z (60 + 10)) with 70 in Ha; change (inject_Z (1000 + 10)) with 1010 in Ha;
    inj_consts; cmp_split; cbn [app] in Ha;
    try (by apply elem_of_nil in Ha);
    apply list_elem_of_singleton in Ha; subst a;
    cbn [alert_valeur alert_niveau alert_type] in *;
    unfold calculate_parameter_score, py_max; cbn [THRESHOLDS th_min th_max];
    inj_consts; cmp_split; cbn [andb];
    (split; [reflexivity|]); (split; [lra|]);
    (split; [intros Hne; try (by destruct Hne);
             split; intros Hl; first [reflexivity | discriminate Hl | lra]
            | intros Hn Hl; first [discriminate Hn | discriminate Hl | lra]]).
Qed.

Lemma X4_level_and_score_witness :
  calculate_parameter_score 30 temperature < 100 /\
  (Niveau.warning = Niveau.warning <-> 50 <= calculate_parameter_score 30 temperature).
Proof.
  destruct (X4_level_and_score (reading 30 50 500 55 400) (uniform_scores 100)
              (spec_candidate temperature 30 Niveau.warning)) as (_ & H1 & H2 & _).
  - vm_compute. constructor.
  - split; [exact H1|]. apply H2. discriminate.
Defined.

Lemma alert_step_cases p v :
  (alert_step [] (p, v) = [] /\ calculate_parameter_score v p = 100) \/
  (length (alert_step [] (p, v)) = 1%nat /\
   0 <= calculate_parameter_score v p <= 100).
Proof.
  destruct (decide (spec_in_zone p v)) as [Hin|Hout].
  - left. split; [by apply alert_step_in_zone|by apply score_in_zone].
  - right. destruct (alert_step_out_of_zone p v Hout) as (nv & -> & _).
    split; [reflexivity|apply score_range].
Qed.

(** X5.  The status is driven by the number of candidates: a reading with
    at most one candidate has the status comfort, and a reading with at
    most two never has the status danger. *)
Theorem X5_status_and_alert_count (mesure : Mesure) (scores : Scores) (id : Z) :
  ((length (generate_alerts mesure scores) <= 1)%nat ->
   statut (derived_indice mesure id) = Statut.comfort) /\
  ((length (generate_alerts mesure scores) <= 2)%nat ->
   statut (derived_indice mesure id) <> Statut.danger).
Proof.
  rewrite generate_alerts_concat. unfold param_order. cbn [mbind list_bind].
  rewrite !length_app. cbn [param_value length].
  unfold derived_indice, indice_data, compute_scores, calculate_global_score, WEIGHTS.
  cbn [statut sc_temperature sc_humidite sc_air sc_bruit sc_luminosite].
  destruct (alert_step_cases temperature (mesure_temperature mesure)) as [[-> ->]|[-> Ht]];
  destruct (alert_step_cases humidite (mesure_humidite mesure)) as [[-> ->]|[-> Hh]];
  destruct (alert_step_cases air (mesure_air mesure)) as [[-> ->]|[-> Ha]];
  destruct (alert_step_cases bruit (mesure_bruit mesure)) as [[-> ->]|[-> Hb]];
  destruct (alert_step_cases luminosite (mesure_luminosite mesure)) as [[-> ->]|[-> Hl]];
  cbn [length Nat.add];
  (split; intros Hn; [try (exfalso; lia)|try (exfalso; lia)]);
  unfold determine_status; cmp_split; first [reflexivity | discriminate | exfalso; lra].
Qed.

Lemma X5_status_and_alert_count_witness :
  statut (derived_indice (reading 10 50 500 55 400) 1) = Statut.comfort /\
  statut (derived_indice (reading 10 50 500 95 400) 1) <> Statut.danger.
Proof.
  split.
  - apply (proj1 (X5_status_and_alert_count (reading 10 50 500 55 400) (uniform_scores 0) 1)).
    vm_compute. lia.
  - apply (proj2 (X5_status_and_alert_count (reading 10 50 500 95 400) (uniform_scores 0) 1)).
    vm_compute. lia.
Defined.

(** ** Ingestion: rejections, outcomes and invariants of the store *)

Lemma global_score_range s :
  scores_in_range s -> 0 <= calculate_global_score s <= 100.
Proof.
  intros (Ht & Hh & Ha & Hb & Hl). unfold calculate_global_score, WEIGHTS. lra.
Qed.

Lemma compute_scores_in_range mesure : scores_in_range (compute_scores mesure).
Proof.
  unfold scores_in_range, compute_scores.
  cbn [sc_temperature sc_humidite sc_air sc_bruit sc_luminosite].
  repeat split; apply score_range.
Qed.

(** What a candidate of the list says about the reading. *)
Lemma generate_alerts_elem mesure scores a :
  a ∈ generate_alerts mesure scores ->
  ~ spec_in_zone (alert_type a) (param_value mesure (alert_type a)) /\
  alert_valeur a = param_value mesure (alert_type a) /\
  alert_seuil a = spec_violated_boundary (alert_type a) (param_value mesure (alert_type a)).
Proof.
  intros Ha. apply elem_of_generate_alerts in Ha.
  destruct (decide (spec_in_zone (alert_type a) (param_value mesure (alert_type a))))
    as [Hin|Hout].
  - rewrite alert_step_in_zone in Ha by done. by apply elem_of_nil in Ha.
  - split; [done|].
    destruct (alert_step_out_of_zone _ _ Hout) as (nv & Hs & _).
    rewrite Hs in Ha. apply list_elem_of_singleton in Ha.
    rewrite Ha at 1 3. done.
Qed.

Lemma alert_step_type p v :
  alert_type <$> alert_step [] (p, v) = filter (λ q, ~ spec_in_zone q v) [p].
Proof.
  rewrite filter_cons, filter_nil.
  destruct (decide (~ spec_in_zone p v)) as [Hout|Hin].
  - destruct (alert_step_out_of_zone p v Hout) as (nv & -> & _). reflexivity.
  - apply dec_stable in Hin. by rewrite alert_step_in_zone.
Qed.

Lemma generate_alerts_types mesure scores :
  alert_type <$> generate_alerts mesure scores =
  filter (λ p, ~ spec_in_zone p (param_value mesure p)) param_order.
Proof.
  rewrite generate_alerts_concat. unfold param_order.
  cbn [mbind list_bind]. rewrite !fmap_app, app_nil_r.
  rewrite !alert_step_type.
  rewrite !(filter_cons _ _ _), !filter_nil.
  repeat match goal with
  | |- context [decide ?P] => destruct (decide P)
  end; reflexivity.
Qed.

Lemma save_alerts_error faults now mid alerts :
  forall k created db e db',
    mid ∈ mesure_id <$> mesures db ->
    save_alerts faults now mid k alerts created db = (inl e, db') ->
    e = DatabaseError.
Proof.
  induction alerts as [|a alerts IH]; intros k created db e db' Hmid Hrun.
  - discriminate Hrun.
  - cbn [save_alerts] in Hrun. unfold tx_bind at 1, tx_get in Hrun.
    unfold alerte_is_valid in Hrun. rewrite bool_decide_eq_true_2 in Hrun by done.
    unfold tx_bind at 1, save_alerte in Hrun.
    destruct (faults k); [by injection Hrun as <- _|].
    eapply IH; [|exact Hrun]. exact Hmid.
Qed.

(** The outcome of the transaction body on a store whose indices all
    belong to stored measurements: it fails only when one of its writes
    does. *)
Lemma collect_body_cases faults now f db :
  (forall i, i ∈ indices db -> indice_mesure i ∈ mesure_id <$> mesures db) ->
  match collect_body faults now f db with
  | (inl e, _) =>
      e = DatabaseError /\
      exists k, faults k = true /\
        (k < 2 + length (generate_alerts
                           (mesure_row (fresh_id (mesure_id <$> mesures db)) f)
                           (compute_scores
                              (mesure_row (fresh_id (mesure_id <$> mesures db)) f))))%nat
  | (inr r, _) =>
      forall k,
        (k < 2 + length (generate_alerts
                           (mesure_row (fresh_id (mesure_id <$> mesures db)) f)
                           (compute_scores
                              (mesure_row (fresh_id (mesure_id <$> mesures db)) f))))%nat ->
        faults k = false
  end.
Proof.
  intros Hfk.
  unfold collect_body, tx_bind at 1, save_mesure.
  destruct (faults 0%nat) eqn:H0.
  { split; [done|]. exists 0%nat. split; [done|lia]. }
  set (m := mesure_row _ f).
  unfold tx_bind at 1, tx_get.
  assert (Hin : mesure_id m ∈ mesure_id <$> mesures db ++ [m]).
  { rewrite fmap_app. apply elem_of_app. right. by apply list_elem_of_singleton. }
  assert (Hnot : mesure_id m ∉ indice_mesure <$> indices db).
  { intros Hx. apply list_elem_of_fmap in Hx as (i & Hi & Hx).
    apply Hfk in Hx. rewrite <- Hi in Hx. by apply fresh_id_fresh in Hx. }
  unfold indice_is_valid. cbn [mesures indices].
  rewrite !bool_decide_eq_true_2 by done. cbn [andb negb].
  unfold tx_bind at 1, save_indice.
  destruct (faults 1%nat) eqn:H1.
  { split; [done|]. exists 1%nat. split; [done|lia]. }
  unfold tx_bind at 1.
  match goal with
  | |- context [save_alerts ?fl ?n ?mi ?k ?al ?c ?d] =>
      pose proof (save_alerts_outcome fl n mi al k c d) as Hal;
      pose proof (save_alerts_error fl n mi al k c d) as Herr;
      destruct (save_alerts fl n mi k al c d) as [[e|out] db']
  end.
  - destruct Hal as (i & Hi & Hf); [exact Hin|].
    split; [by eapply Herr|].
    exists (2 + i)%nat. split; [done|lia].
  - destruct Hal as (rows & _ & _ & _ & _ & _ & _ & Hf); [exact Hin|].
    unfold tx_ret. intros [|[|k]] Hk; [done..|].
    apply (Hf k). lia.
Qed.

Lemma persists_elem mid now alerts rows row :
  Forall2 (persists mid now) alerts rows ->
  row ∈ rows -> exists a, a ∈ alerts /\ persists mid now a row.
Proof.
  induction 1 as [|a r alerts rows Hp _ IH]; intros Hr.
  - by apply elem_of_nil in Hr.
  - apply elem_of_cons in Hr as [->|Hr].
    + exists a. split; [left|done].
    + destruct (IH Hr) as (a' & Ha' & Hp'). exists a'. split; [by right|done].
Qed.

Lemma persists_keys mid now alerts rows :
  Forall2 (persists mid now) alerts rows ->
  (λ r, (alerte_mesure r, alerte_type r)) <$> rows = (λ a, (mid, alert_type a)) <$> alerts.
Proof.
  induction 1 as [|a r alerts rows Hp _ IH]; [done|].
  cbn [fmap list_fmap]. destruct Hp as (-> & -> & _). f_equal. exact IH.
Qed.

Lemma collect_body_derived faults now f db r db' :
  db_consistent db ->
  store_derived db ->
  collect_body faults now f db = (inr r, db') ->
  store_derived db'.
Proof.
  intros [Hids Huniq Hifk Hafk Hhas] [Hdi Hda Hdu] Hrun.
  pose proof (collect_body_outcome faults now f db) as Hout.
  rewrite Hrun in Hout.
  destruct Hout as (Hm & Hi & Hnot & HF & Hs & Hms & His & Has).
  assert (Hmin : resp_mesure r ∈ mesures db').
  { rewrite Hms. apply elem_of_app. right. by apply list_elem_of_singleton. }
  split.
  - intros i Hin. rewrite His in Hin. apply elem_of_app in Hin as [Hin|Hin].
    + destruct (Hdi i Hin) as (m & Hmm & Hid & Hd). exists m.
      split; [|done]. rewrite Hms. apply elem_of_app. by left.
    + apply list_elem_of_singleton in Hin. subst i.
      exists (resp_mesure r). split; [done|]. rewrite Hi. done.
  - intros a Hin. rewrite Has in Hin. apply elem_of_app in Hin as [Hin|Hin].
    + destruct (Hda a Hin) as (m & Hmm & Hrest). exists m.
      split; [|done]. rewrite Hms. apply elem_of_app. by left.
    + destruct (persists_elem _ _ _ _ a HF Hin) as (c & Hc & Hp).
      destruct Hp as (Hpm & Hpt & Hpv & Hps & _).
      apply generate_alerts_elem in Hc as (Hz & Hv & Hse).
      exists (resp_mesure r). rewrite Hpt, Hpv, Hps, Hse. done.
  - rewrite Has, fmap_app. apply NoDup_app. split; [done|]. split.
    + intros [mid p] Hold Hnew.
      apply list_elem_of_fmap in Hold as (a & Ha & Hain).
      apply list_elem_of_fmap in Hnew as (a' & Ha' & Hain').
      injection Ha as -> ->. injection Ha' as Hmid _.
      rewrite (persists_mesure _ _ _ _ HF a' Hain') in Hmid.
      apply Hafk in Hain. rewrite Hmid, Hm in Hain. cbn in Hain.
      by apply fresh_id_fresh in Hain.
    + rewrite (persists_keys _ _ _ _ HF).
      rewrite (list_fmap_compose alert_type (λ p, (mesure_id (resp_mesure r), p))).
      apply NoDup_fmap_2; [intros p q; congruence|].
      rewrite generate_alerts_types. apply NoDup_filter.
      unfold param_order. compute_done.
Qed.

Section IngestionInvariants.

Variable coerce_pk : PyVal -> option Z.
Variable coerce_float : PyVal -> option Q.
Variable coerce_datetime : PyVal -> option Z.

Local Abbreviation validate' := (validate coerce_pk coerce_float coerce_datetime).
Local Abbreviation collect' := (collect_measurement coerce_pk coerce_float coerce_datetime).
Local Abbreviation reachable' := (reachable coerce_pk coerce_float coerce_datetime).

Lemma reachable_derived db : reachable' db -> store_derived db.
Proof.
  induction 1 as [rooms|faults now data db Hr IH].
  - split; cbn; try apply NoDup_nil_2; intros x Hx; by apply elem_of_nil in Hx.
  - unfold collect_measurement.
    destruct (validate' now data db) as [e|f]; [done|].
    unfold atomic.
    destruct (collect_body faults now f db) as [[e|r] db'] eqn:Hrun; [done|].
    cbn. eapply collect_body_derived; [|done..].
    by eapply reachable_consistent.
Qed.

(** X6.  A request that lacks one of the five sensor fields, or gives it
    as null, is rejected during validation and nothing is written; when
    its room reference is an integer naming a stored room, the error is a
    validation error. *)
Theorem X6_missing_field_rejected faults now data db key :
  key ∈ ["temperature"; "humidite"; "air"; "bruit"; "luminosite"] ->
  data !! key = None \/ data !! key = Some PyNone ->
  (exists e, validate' now data db = inl e /\
             collect' faults now data db = (inl e, db)) /\
  (forall n, data !! "salle_id" = Some (PyInt n) -> n <> 0%Z ->
             n ∈ salle_id <$> salles db ->
             collect' faults now data db = (inl ValidationError, db)).
Proof.
  intros Hkey Hmiss.
  assert (Hf : float_field coerce_float (data_get data key) = None).
  { unfold data_get. destruct Hmiss as [-> | ->]; reflexivity. }
  assert (Hval : forall s,
    match float_field coerce_float (data_get data "temperature"),
          float_field coerce_float (data_get data "humidite"),
          float_field coerce_float (data_get data "air"),
          float_field coerce_float (data_get data "bruit"),
          float_field coerce_float (data_get data "luminosite"),
          datetime_field coerce_datetime (default (PyDateTime now) (data !! "timestamp")) with
    | Some t, Some h, Some a, Some b, Some l, Some ts =>
        inr {| f_salle := salle_id s; f_temperature := t; f_humidite := h;
               f_air := a; f_bruit := b; f_luminosite := l; f_timestamp := ts |}
    | _, _, _, _, _, _ => inl ValidationError
    end = inl ValidationError).
  { intros s.
    repeat (apply elem_of_cons in Hkey as [->|Hkey];
            [rewrite Hf; repeat case_match; reflexivity|]).
    by apply elem_of_nil in Hkey. }
  split.
  - assert (Hv : exists e, validate' now data db = inl e).
    { unfold validate.
      destruct (truthy _); cbn [negb]; [|eauto].
      destruct (pk_of coerce_pk _) as [pk|]; [|eauto].
      destruct (head (filter _ (salles db))) as [s|]; [|eauto].
      rewrite Hval. eauto. }
    destruct Hv as [e Hv]. exists e. split; [done|].
    by apply collect_measurement_rejected.
  - intros n Hn Hn0 Hroom. apply collect_measurement_rejected.
    unfold validate. rewrite Hn. cbn [default from_option id truthy pk_of].
    destruct (Z.eqb_spec n 0) as [|_]; [done|]. cbn [negb].
    match goal with
    | |- context [head ?l] => destruct (head l) as [s|] eqn:Hs
    end; [apply Hval|].
    exfalso. apply head_None in Hs.
    apply list_elem_of_fmap in Hroom as (s & -> & Hin).
    assert (Hx : s ∈ filter (λ s0, salle_id s0 = salle_id s) (salles db)).
    { by apply list_elem_of_filter. }
    rewrite Hs in Hx. by apply elem_of_nil in Hx.
Qed.

(** X7.  On a reachable store a request that has passed validation can
    fail only through the storage layer: the call ends in a database
    error, with the store unchanged, exactly when one of its writes (the
    measurement, the index, one per candidate alert) fails; otherwise it
    returns the stored measurement built from the validated fields. *)
Theorem X7_fails_only_on_storage faults now data db f :
  reachable' db ->
  validate' now data db = inr f ->
  match collect' faults now data db with
  | (inl e, db') =>
      e = DatabaseError /\ db' = db /\
      exists k, faults k = true /\ (k < writes_of db f)%nat
  | (inr r, db') =>
      resp_mesure r = mesure_row (fresh_id (mesure_id <$> mesures db)) f /\
      forall k, (k < writes_of db f)%nat -> faults k = false
  end.
Proof.
  intros Hr Hv. unfold collect_measurement, atomic. rewrite Hv.
  apply reachable_consistent in Hr.
  pose proof (collect_body_cases faults now f db (cons_indice_fk db Hr)) as Hc.
  pose proof (collect_body_outcome faults now f db) as Ho.
  destruct (collect_body faults now f db) as [[e|r] db'].
  - destruct Hc as (-> & k & Hk & Hlt). split; [done|]. split; [done|]. eauto.
  - destruct Ho as (Hm & _). split; [done|]. exact Hc.
Qed.

(** X8.  In every reachable store each comfort index belongs to a stored
    measurement, carries that measurement's timestamp, holds the weighted
    sum of the measurement's five scores with the status of that sum, and
    all its six scores lie between 0 and 100. *)
Theorem X8_stored_index_is_derived db i :
  reachable' db ->
  i ∈ indices db ->
  exists m,
    m ∈ mesures db /\
    mesure_id m = indice_mesure i /\
    indice_timestamp i = mesure_timestamp m /\
    score_global i = calculate_global_score (compute_scores m) /\
    statut i = determine_status (score_global i) /\
    forall c, 0 <= column_value c i <= 100.
Proof.
  intros Hr Hi. apply reachable_derived in Hr.
  destruct (derived_indices db Hr i Hi) as (m & Hm & Hid & Hd).
  exists m. split; [done|]. split; [done|].
  rewrite Hd. unfold derived_indice, indice_data.
  cbn [indice_timestamp score_global statut].
  split; [done|]. split; [done|]. split; [done|].
  intros c. pose proof (compute_scores_in_range m) as Hs.
  pose proof (global_score_range _ Hs) as Hg.
  destruct Hs as (Ht & Hh & Ha & Hb & Hl).
  destruct c; cbn [column_value score_global score_temperature score_humidite
                   score_air score_bruit score_luminosite]; done.
Qed.

(** X9.  In every reachable store each alert belongs to a stored
    measurement whose value for the alert's parameter lies outside the
    comfort zone; the alert records that value and the violated boundary;
    and no measurement has two alerts for the same parameter. *)
Theorem X9_stored_alert_is_justified db :
  reachable' db ->
  (forall a, a ∈ alertes db ->
     exists m,
       m ∈ mesures db /\
       mesure_id m = alerte_mesure a /\
       ~ spec_in_zone (alerte_type a) (param_value m (alerte_type a)) /\
       alerte_valeur a = param_value m (alerte_type a) /\
       alerte_seuil a =
         inject_Z (spec_violated_boundary (alerte_type a)
                     (param_value m (alerte_type a)))) /\
  NoDup ((λ a, (alerte_mesure a, alerte_type a)) <$> alertes db).
Proof.
  intros Hr. apply reachable_derived in Hr. split.
  - apply (derived_alertes db Hr).
  - apply (derived_alertes_unique db Hr).
Qed.

End IngestionInvariants.

Lemma reachable_after_one_reading : reachable reject reject reject after_one_reading.
Proof.
  unfold after_one_reading. apply reachable_collect. apply reachable_init.
Qed.

Lemma X6_missing_field_rejected_witness :
  exists e,
    collect_measurement reject reject reject no_fault 1000
      (delete "air" (request None None 24 50 500 55 400)) one_room = (inl e, one_room).
Proof.
  destruct (proj1 (X6_missing_field_rejected reject reject reject no_fault 1000
              (delete "air" (request None None 24 50 500 55 400)) one_room "air"
              ltac:(compute_done) ltac:(left; reflexivity))) as (e & _ & He).
  by exists e.
Defined.

Lemma X7_fails_only_on_storage_witness :
  match collect_measurement reject reject reject (fault_at 2) 1000
          (request None None 30 50 500 55 400) one_room with
  | (inl e, db') =>
      e = DatabaseError /\ db' = one_room /\
      exists k, fault_at 2 k = true /\
        (k < writes_of one_room
               {| f_salle := 1; f_temperature := 30; f_humidite := 50; f_air := 500;
                  f_bruit := 55; f_luminosite := 400; f_timestamp := 1000 |})%nat
  | (inr r, db') =>
      resp_mesure r =
        mesure_row (fresh_id (mesure_id <$> mesures one_room))
          {| f_salle := 1; f_temperature := 30; f_humidite := 50; f_air := 500;
             f_bruit := 55; f_luminosite := 400; f_timestamp := 1000 |} /\
      forall k,
        (k < writes_of one_room
               {| f_salle := 1; f_temperature := 30; f_humidite := 50; f_air := 500;
                  f_bruit := 55; f_luminosite := 400; f_timestamp := 1000 |})%nat ->
        fault_at 2 k = false
  end.
Proof.
  apply (X7_fails_only_on_storage reject reject reject (fault_at 2) 1000
           (request None None 30 50 500 55 400) one_room).
  - apply reachable_init.
  - vm_compute. reflexivity.
Defined.

Lemma X8_stored_index_is_derived_witness :
  exists i m,
    i ∈ indices after_one_reading /\ m ∈ mesures after_one_reading /\
    indice_timestamp i = mesure_timestamp m /\
    0 <= score_global i <= 100.
Proof.
  assert (Hi : exists i, i ∈ indices after_one_reading).
  { vm_compute. eexists. constructor. }
  destruct Hi as [i Hi].
  destruct (X8_stored_index_is_derived reject reject reject after_one_reading i
              reachable_after_one_reading Hi) as (m & Hm & _ & Hts & _ & _ & Hc).
  exists i, m. split; [done|]. split; [done|]. split; [done|].
  exact (Hc col_score_global).
Defined.

Lemma X9_stored_alert_is_justified_witness :
  NoDup ((λ a, (alerte_mesure a, alerte_type a)) <$> alertes after_one_reading).
Proof.
  apply (X9_stored_alert_is_justified reject reject reject after_one_reading).
  apply reachable_after_one_reading.
Defined.

(** ** Minimum, average and maximum *)

Lemma inject_length_cons {A} (x : A) (l : list A) :
  inject_Z (Z.of_nat (length (x :: l))) == inject_Z (Z.of_nat (length l)) + 1.
Proof.
  cbn [length]. rewrite Nat2Z.inj_succ, <- Z.add_1_r, inject_Z_plus. reflexivity.
Qed.

Lemma sum_lower_bound (a : Q) (l : list Q) :
  (forall x, x ∈ l -> a <= x) ->
  a * inject_Z (Z.of_nat (length l)) <= foldr Qplus 0 l.
Proof.
  induction l as [|x l IH]; intros H.
  - change (a * 0 <= 0). lra.
  - rewrite inject_length_cons, Qmult_plus_distr_r. cbn [foldr].
    assert (a <= x) by (apply H; left).
    assert (a * inject_Z (Z.of_nat (length l)) <= foldr Qplus 0 l)
      by (apply IH; intros y Hy; apply H; by right).
    lra.
Qed.

Lemma sum_upper_bound (a : Q) (l : list Q) :
  (forall x, x ∈ l -> x <= a) ->
  foldr Qplus 0 l <= a * inject_Z (Z.of_nat (length l)).
Proof.
  induction l as [|x l IH]; intros H.
  - change (0 <= a * 0). lra.
  - rewrite inject_length_cons, Qmult_plus_distr_r. cbn [foldr].
    assert (x <= a) by (apply H; left).
    assert (foldr Qplus 0 l <= a * inject_Z (Z.of_nat (length l)))
      by (apply IH; intros y Hy; apply H; by right).
    lra.
Qed.

Lemma inject_length_pos {A} (l : list A) :
  l <> [] -> 0 < inject_Z (Z.of_nat (length l)).
Proof.
  destruct l as [|x l]; [done|]. intros _.
  rewrite inject_length_cons.
  assert (0 <= inject_Z (Z.of_nat (length l))).
  { change 0 with (inject_Z 0). rewrite <- Zle_Qle. lia. }
  lra.
Qed.

Lemma min_avg_max_order (l : list Q) (omin oavg omax : option Q) :
  is_minimum omin l -> is_average oavg l -> is_maximum omax l ->
  exists mn av mx,
    omin = Some mn /\ oavg = Some av /\ omax = Some mx /\ mn <= av /\ av <= mx.
Proof.
  intros (mn & -> & _ & Hmn) (av & -> & Hne & Hav) (mx & -> & _ & Hmx).
  exists mn, av, mx. repeat split; try done.
  - apply (Qmult_le_r _ _ (inject_Z (Z.of_nat (length l)))).
    + by apply inject_length_pos.
    + rewrite Hav. by apply sum_lower_bound.
  - apply (Qmult_le_r _ _ (inject_Z (Z.of_nat (length l)))).
    + by apply inject_length_pos.
    + rewrite Hav. by apply sum_upper_bound.
Qed.

(** ** Statistics *)

(** The window of a successful call. *)
Lemma get_comfort_statistics_ok now db salle days :
  salle <> 0%Z ->
  (Z.abs days ≤ 999999999)%Z ->
  (MIN_DATETIME ≤ now - days * 86400)%Z ->
  (now - days * 86400 ≤ MAX_DATETIME)%Z ->
  exists st,
    get_comfort_statistics now db salle days = inr st /\
    period_days st = days /\
    total_measurements st =
      length (stats_window db salle (now - days * 86400) now) /\
    min_score st = sql_min (score_global <$> stats_window db salle (now - days * 86400) now) /\
    max_score st = sql_max (score_global <$> stats_window db salle (now - days * 86400) now) /\
    average_score st = sql_avg (score_global <$> stats_window db salle (now - days * 86400) now) /\
    status_distribution st = status_counts (stats_window db salle (now - days * 86400) now) /\
    discomfort_percentage st =
      (if (0 <? length (stats_window db salle (now - days * 86400) now))%nat
       then inject_Z (Z.of_nat (length (filter
                        (λ i, statut i = Statut.warning \/ statut i = Statut.danger)
                        (stats_window db salle (now - days * 86400) now)))) /
            inject_Z (Z.of_nat (length (stats_window db salle (now - days * 86400) now))) * 100
       else 0) /\
    alert_count st =
      length (filter (λ a, salle_of_alerte db a = Some salle /\
                           (now - days * 86400 ≤ alerte_timestamp a)%Z /\
                           (alerte_timestamp a ≤ now)%Z) (alertes db)).
Proof.
  intros Hs Hd Hlo Hhi. unfold get_comfort_statistics, timedelta_days, datetime_sub.
  destruct (Z.eqb_spec salle 0) as [|_]; [done|].
  destruct (Z.leb_spec (Z.abs days) 999999999) as [_|]; [|lia].
  cbv zeta.
  destruct (Z.leb_spec MIN_DATETIME (now - days * 86400)) as [_|]; [|lia].
  destruct (Z.leb_spec (now - days * 86400) MAX_DATETIME) as [_|]; [|lia].
  cbn [andb]. eexists. split; [reflexivity|]. cbn. repeat split.
Qed.

Lemma get_comfort_statistics_inv now db salle days st :
  get_comfort_statistics now db salle days = inr st ->
  salle <> 0%Z /\ window_representable now days.
Proof.
  unfold get_comfort_statistics, timedelta_days, datetime_sub, window_representable.
  destruct (Z.eqb_spec salle 0) as [|Hs]; [done|].
  destruct (Z.leb_spec (Z.abs days) 999999999) as [Hd|]; [|done].
  cbv zeta.
  destruct (Z.leb_spec MIN_DATETIME (now - days * 86400)) as [Hlo|]; [|done].
  destruct (Z.leb_spec (now - days * 86400) MAX_DATETIME) as [Hhi|]; [|done].
  done.
Qed.

Lemma get_comfort_statistics_fields now db salle days st :
  get_comfort_statistics now db salle days = inr st ->
  period_days st = days /\
  total_measurements st = length (window_of now db salle days) /\
  min_score st = sql_min (score_global <$> window_of now db salle days) /\
  max_score st = sql_max (score_global <$> window_of now db salle days) /\
  average_score st = sql_avg (score_global <$> window_of now db salle days) /\
  status_distribution st = status_counts (window_of now db salle days) /\
  discomfort_percentage st =
    (if (0 <? length (window_of now db salle days))%nat
     then inject_Z (Z.of_nat (length (filter discomfort (window_of now db salle days)))) /
          inject_Z (Z.of_nat (length (window_of now db salle days))) * 100
     else 0) /\
  alert_count st =
    length (filter (λ a, salle_of_alerte db a = Some salle /\
                         (now - days * 86400 ≤ alerte_timestamp a)%Z /\
                         (alerte_timestamp a ≤ now)%Z) (alertes db)).
Proof.
  intros H. pose proof (get_comfort_statistics_inv _ _ _ _ _ H) as (Hs & Hd & Hlo & Hhi).
  destruct (get_comfort_statistics_ok now db salle days Hs Hd Hlo Hhi)
    as (st' & Hst & Hrest).
  rewrite H in Hst. injection Hst as <-. exact Hrest.
Qed.

(** X10.  Statistics of a window: with no record in the window the three
    score aggregates are absent, the distribution is empty and the
    discomfort percentage is 0; with at least one record minimum, average
    and maximum are all present and ordered: minimum <= average <=
    maximum. *)
Theorem X10_statistics_scores now db salle days st :
  get_comfort_statistics now db salle days = inr st ->
  (total_measurements st = 0%nat ->
   min_score st = None /\ average_score st = None /\ max_score st = None /\
   status_distribution st = [] /\ discomfort_percentage st = 0) /\
  ((0 < total_measurements st)%nat ->
   exists mn av mx,
     min_score st = Some mn /\ average_score st = Some av /\ max_score st = Some mx /\
     mn <= av /\ av <= mx).
Proof.
  intros H.
  destruct (get_comfort_statistics_fields _ _ _ _ _ H)
    as (_ & Ht & Hmin & Hmax & Havg & Hdist & Hpct & _).
  rewrite Ht, Hmin, Hmax, Havg, Hdist, Hpct. split.
  - intros H0. apply length_zero_iff_nil in H0. rewrite H0. done.
  - intros Hpos.
    assert (Hne : score_global <$> window_of now db salle days <> []).
    { intros He. apply fmap_nil_inv in He. rewrite He in Hpos. cbn in Hpos. lia. }
    apply (min_avg_max_order (score_global <$> window_of now db salle days)).
    + by apply sql_min_minimum.
    + by apply sql_avg_average.
    + by apply sql_max_maximum.
Qed.

Lemma status_counts_elem window s n :
  (s, n) ∈ status_counts window <->
  n = length (filter (λ i, statut i = s) window) /\ (0 < n)%nat.
Proof.
  unfold status_counts. rewrite list_elem_of_fmap. split.
  - intros (st & [= -> ->] & Hst). split; [done|].
    apply elem_of_remove_dups, list_elem_of_fmap in Hst as (i & Hi & Hin).
    assert (Hf : i ∈ filter (λ j, statut j = st) window)
      by (apply list_elem_of_filter; done).
    destruct (filter _ window); [by apply elem_of_nil in Hf|cbn; lia].
  - intros [-> Hpos]. exists s. split; [done|].
    apply elem_of_remove_dups, list_elem_of_fmap.
    destruct (filter (λ i, statut i = s) window) as [|i l] eqn:E; [cbn in Hpos; lia|].
    assert (Hi : i ∈ filter (λ i, statut i = s) window) by (rewrite E; left).
    apply list_elem_of_filter in Hi as [Hs Hi]. eauto.
Qed.

Lemma status_counts_keys window :
  (status_counts window).*1 = remove_dups (statut <$> window).
Proof.
  unfold status_counts. rewrite <- list_fmap_compose.
  rewrite <- (list_fmap_id (remove_dups _)) at 2.
  apply list_fmap_ext. intros j k _. reflexivity.
Qed.

Lemma indicator_sum (keys : list Statut.t) (s : Statut.t) :
  NoDup keys -> s ∈ keys ->
  sum_list ((λ k, if decide (s = k) then 1 else 0)%nat <$> keys) = 1%nat.
Proof.
  induction 1 as [|k keys Hk Hnd IH]; intros Hs.
  - by apply elem_of_nil in Hs.
  - cbn [fmap list_fmap sum_list sum_list_with].
    destruct (decide (s = k)) as [->|Hne].
    + assert (Hz : sum_list ((λ k0, if decide (k = k0) then 1 else 0)%nat <$> keys) = 0%nat).
      { clear IH Hnd Hs. induction keys as [|k' keys IH]; [done|].
        cbn [fmap list_fmap sum_list sum_list_with].
        destruct (decide (k = k')) as [->|_].
        - exfalso. apply Hk. left.
        - cbn. apply IH. intros Hin. apply Hk. by right. }
      change (1 + sum_list ((λ k0, if decide (k = k0) then 1 else 0)%nat <$> keys) = 1)%nat.
      lia.
    + apply elem_of_cons in Hs as [->|Hs]; [done|].
      change (0 + sum_list ((λ k0, if decide (s = k0) then 1 else 0)%nat <$> keys) = 1)%nat.
      rewrite IH by done. lia.
Qed.

Lemma count_sum_cons (keys : list Statut.t) (i : IndiceConfort) (l : list IndiceConfort) :
  sum_list ((λ st, length (filter (λ j, statut j = st) (i :: l))) <$> keys) =
  (sum_list ((λ k, if decide (statut i = k) then 1 else 0)%nat <$> keys) +
   sum_list ((λ st, length (filter (λ j, statut j = st) l)) <$> keys))%nat.
Proof.
  induction keys as [|k keys IH]; [done|].
  rewrite !fmap_cons. cbn [sum_list sum_list_with].
  rewrite filter_cons. destruct (decide (statut i = k)); cbn [length];
    rewrite IH; unfold id; lia.
Qed.

Lemma status_counts_total (keys : list Statut.t) (l : list IndiceConfort) :
  NoDup keys -> (forall i, i ∈ l -> statut i ∈ keys) ->
  sum_list ((λ st, length (filter (λ j, statut j = st) l)) <$> keys) = length l.
Proof.
  intros Hnd. induction l as [|i l IH]; intros Hin.
  - clear. induction keys as [|k keys IH]; [done|].
    rewrite fmap_cons. cbn [sum_list sum_list_with].
    rewrite filter_nil, IH. reflexivity.
  - rewrite count_sum_cons, indicator_sum, IH; [done|..].
    + intros j Hj. apply Hin. by right.
    + done.
    + apply Hin. left.
Qed.

(** X11.  The status distribution of the statistics lists each status
    present in the window exactly once, with the number of the window's
    records of that status (never 0), and the counts add up to the total
    number of records. *)
Theorem X11_status_distribution now db salle days st :
  get_comfort_statistics now db salle days = inr st ->
  NoDup (status_distribution st).*1 /\
  (forall s n, (s, n) ∈ status_distribution st <->
     n = length (filter (λ i, statut i = s) (window_of now db salle days)) /\
     (0 < n)%nat) /\
  sum_list (status_distribution st).*2 = total_measurements st.
Proof.
  intros H.
  destruct (get_comfort_statistics_fields _ _ _ _ _ H) as (_ & Ht & _ & _ & _ & Hdist & _).
  rewrite Hdist, Ht. split; [|split].
  - rewrite status_counts_keys. apply NoDup_remove_dups.
  - intros s n. apply status_counts_elem.
  - unfold status_counts. rewrite <- list_fmap_compose.
    apply status_counts_total; [apply NoDup_remove_dups|].
    intros i Hi. apply elem_of_remove_dups. by apply list_elem_of_fmap_2.
Qed.

Lemma percentage_bounds (d t : nat) :
  (d <= t)%nat -> (0 < t)%nat ->
  0 <= inject_Z (Z.of_nat d) / inject_Z (Z.of_nat t) * 100 <= 100 /\
  inject_Z (Z.of_nat d) / inject_Z (Z.of_nat t) * 100 * inject_Z (Z.of_nat t) ==
    100 * inject_Z (Z.of_nat d).
Proof.
  intros Hle Hpos.
  assert (Ht : 0 < inject_Z (Z.of_nat t)).
  { change 0 with (inject_Z 0). rewrite <- Zlt_Qlt. lia. }
  assert (Hd : 0 <= inject_Z (Z.of_nat d)).
  { change 0 with (inject_Z 0). rewrite <- Zle_Qle. lia. }
  assert (Hdt : inject_Z (Z.of_nat d) <= inject_Z (Z.of_nat t)).
  { rewrite <- Zle_Qle. lia. }
  assert (Heq : inject_Z (Z.of_nat d) / inject_Z (Z.of_nat t) * 100 * inject_Z (Z.of_nat t) ==
                100 * inject_Z (Z.of_nat d)).
  { field. lra. }
  split; [|exact Heq]. split.
  - apply (Qmult_le_r _ _ (inject_Z (Z.of_nat t))); [done|]. rewrite Heq. lra.
  - apply (Qmult_le_r _ _ (inject_Z (Z.of_nat t))); [done|]. rewrite Heq. lra.
Qed.

(** X12.  The discomfort percentage lies between 0 and 100; multiplied by
    the number of records it gives 100 times the number of records whose
    status is warning or danger; it is 0 when the window is empty. *)
Theorem X12_discomfort_percentage now db salle days st :
  get_comfort_statistics now db salle days = inr st ->
  0 <= discomfort_percentage st <= 100 /\
  discomfort_percentage st * inject_Z (Z.of_nat (total_measurements st)) ==
    100 * inject_Z (Z.of_nat (length (filter discomfort (window_of now db salle days)))) /\
  (total_measurements st = 0%nat -> discomfort_percentage st = 0).
Proof.
  intros H.
  destruct (get_comfort_statistics_fields _ _ _ _ _ H) as (_ & Ht & _ & _ & _ & _ & Hp & _).
  rewrite Hp, Ht.
  pose proof (length_filter discomfort (window_of now db salle days)) as Hle.
  destruct (Nat.ltb_spec 0 (length (window_of now db salle days))) as [Hpos|Hz].
  - destruct (percentage_bounds _ _ Hle Hpos) as [Hb He].
    split; [exact Hb|]. split; [exact He|]. intros H0. lia.
  - assert (Hl : length (window_of now db salle days) = 0%nat) by lia.
    assert (Hf : length (filter discomfort (window_of now db salle days)) = 0%nat) by lia.
    rewrite Hl, Hf. split; [lra|]. split; [reflexivity|done].
Qed.

Lemma filter_all_false {A} (P : A -> Prop) `{!forall x, Decision (P x)} (l : list A) :
  (forall x, x ∈ l -> ~ P x) -> filter P l = [].
Proof.
  induction l as [|x l IH]; intros Hall; [done|].
  rewrite filter_cons_False by (apply Hall; left).
  apply IH. intros y Hy. apply Hall. by right.
Qed.

Lemma stats_window_future db salle start_date end_date :
  (end_date < start_date)%Z -> stats_window db salle start_date end_date = [].
Proof.
  intros H. unfold stats_window. apply filter_all_false. intros i _. lia.
Qed.

Lemma percentage_identity now db salle days st :
  get_comfort_statistics now db salle days = inr st ->
  discomfort_percentage st * inject_Z (Z.of_nat (total_measurements st)) ==
    100 * inject_Z (Z.of_nat (length (filter discomfort (window_of now db salle days)))).
Proof.
  intros H.
  destruct (get_comfort_statistics_fields _ _ _ _ _ H) as (_ & Ht & _ & _ & _ & _ & Hp & _).
  rewrite Hp, Ht.
  pose proof (length_filter discomfort (window_of now db salle days)) as Hle.
  destruct (Nat.ltb_spec 0 (length (window_of now db salle days))) as [Hpos|Hz].
  - apply (percentage_bounds _ _ Hle Hpos).
  - assert (Hl : length (window_of now db salle days) = 0%nat) by lia.
    assert (Hf : length (filter discomfort (window_of now db salle days)) = 0%nat) by lia.
    rewrite Hl, Hf. reflexivity.
Qed.

(** X13.  When the statistics call fails and when it does not: a room key
    of 0 is refused with a value error; a window that Python's dates
    cannot represent (more than 999999999 days, or a start before year 1
    or after year 9999) ends in an overflow error; every other call
    returns statistics.  A negative number of days is not an error: it
    gives an empty window, with no record and no alert counted. *)
Theorem X13_statistics_errors now db salle days :
  (salle = 0%Z ->
   get_comfort_statistics now db salle days = inl (StatsValueError "salle_id is required")) /\
  (salle <> 0%Z -> ~ window_representable now days ->
   get_comfort_statistics now db salle days = inl StatsOverflowError) /\
  (salle <> 0%Z -> window_representable now days ->
   exists st, get_comfort_statistics now db salle days = inr st /\
              period_days st = days /\
              ((days < 0)%Z -> total_measurements st = 0%nat /\ alert_count st = 0%nat)).
Proof.
  split; [|split].
  - intros ->. reflexivity.
  - intros Hs Hw. unfold get_comfort_statistics, timedelta_days, datetime_sub.
    unfold window_representable in Hw.
    destruct (Z.eqb_spec salle 0) as [|_]; [done|].
    destruct (Z.leb_spec (Z.abs days) 999999999) as [Hd|]; [|done].
    cbv zeta.
    destruct (Z.leb_spec MIN_DATETIME (now - days * 86400)) as [Hlo|]; [|done].
    destruct (Z.leb_spec (now - days * 86400) MAX_DATETIME) as [Hhi|]; [|done].
    exfalso. apply Hw. done.
  - intros Hs (Hd & Hlo & Hhi).
    destruct (get_comfort_statistics_ok now db salle days Hs Hd Hlo Hhi)
      as (st & Hst & Hp & Ht & _ & _ & _ & _ & _ & Ha).
    exists st. split; [done|]. split; [done|]. intros Hneg.
    rewrite Ht, Ha. split.
    + rewrite stats_window_future by lia. reflexivity.
    + rewrite filter_all_false; [done|]. intros a _. lia.
Qed.

Lemma discomfort_iff_below_70 g :
  (determine_status g = Statut.warning \/ determine_status g = Statut.danger) <->
  Qltb g 70 = true.
Proof.
  rewrite Qltb_lt. unfold determine_status. split.
  - intros H. cmp_split; [destruct H as [H|H]; discriminate H|lra|lra].
  - intros H. cmp_split; [lra|by left|by right].
Qed.

Section StatisticsOfReachableStores.

Variable coerce_pk : PyVal -> option Z.
Variable coerce_float : PyVal -> option Q.
Variable coerce_datetime : PyVal -> option Z.

Local Abbreviation reachable' := (reachable coerce_pk coerce_float coerce_datetime).

Lemma reachable_index_facts db i :
  reachable' db -> i ∈ indices db ->
  statut i = determine_status (score_global i) /\ 0 <= score_global i <= 100.
Proof.
  intros Hr Hi. apply reachable_derived in Hr.
  destruct (derived_indices db Hr i Hi) as (m & _ & _ & ->).
  unfold derived_indice, indice_data. cbn [statut score_global].
  split; [done|]. apply global_score_range, compute_scores_in_range.
Qed.

(** X14.  Statistics over a reachable store: minimum, average and maximum
    lie between 0 and 100, and the discomfort percentage is the share of
    the window's records whose global score is below 70. *)
Theorem X14_statistics_of_reachable_store now db salle days st :
  reachable' db ->
  get_comfort_statistics now db salle days = inr st ->
  (forall v, min_score st = Some v \/ average_score st = Some v \/ max_score st = Some v ->
             0 <= v <= 100) /\
  discomfort_percentage st * inject_Z (Z.of_nat (total_measurements st)) ==
    100 * inject_Z (Z.of_nat (length (filter (λ i, Qltb (score_global i) 70 = true)
                                        (window_of now db salle days)))).
Proof.
  intros Hr H.
  assert (Hin : forall i, i ∈ window_of now db salle days -> i ∈ indices db).
  { intros i Hi. unfold window_of, stats_window in Hi.
    apply list_elem_of_filter in Hi as [_ Hi].
    unfold indices_of_salle in Hi. by apply list_elem_of_filter in Hi as [_ Hi]. }
  split.
  - destruct (get_comfort_statistics_fields _ _ _ _ _ H)
      as (_ & _ & Hmin & Hmax & Havg & _).
    assert (Hrange : forall x, x ∈ score_global <$> window_of now db salle days ->
                               0 <= x <= 100).
    { intros x Hx. apply list_elem_of_fmap in Hx as (i & -> & Hi).
      by apply (reachable_index_facts db i Hr), Hin. }
    destruct (decide (score_global <$> window_of now db salle days = [])) as [He|Hne].
    + rewrite He in Hmin, Hmax, Havg. cbn in Hmin, Hmax, Havg.
      intros v [Hv|[Hv|Hv]]; congruence.
    + pose proof (sql_min_minimum _ Hne) as Hmn.
      pose proof (sql_max_maximum _ Hne) as Hmx.
      pose proof (sql_avg_average _ Hne) as Hav.
      destruct (min_avg_max_order _ _ _ _ Hmn Hav Hmx)
        as (mn & av & mx & E1 & E2 & E3 & Hle1 & Hle2).
      destruct Hmn as (mn' & Emn & Hmnin & _). destruct Hmx as (mx' & Emx & Hmxin & _).
      assert (mn' = mn) by congruence. assert (mx' = mx) by congruence. subst mn' mx'.
      apply Hrange in Hmnin, Hmxin.
      rewrite Hmin, Havg, Hmax, E1, E2, E3.
      intros v [[= <-]|[[= <-]|[= <-]]]; lra.
  - rewrite (percentage_identity _ _ _ _ _ H).
    rewrite (filter_ext_elem discomfort (λ i, Qltb (score_global i) 70 = true)); [done|].
    intros i Hi. unfold discomfort.
    destruct (reachable_index_facts db i Hr (Hin i Hi)) as [-> _].
    apply discomfort_iff_below_70.
Qed.

End StatisticsOfReachableStores.

Lemma X10_statistics_scores_witness :
  exists st mn av mx,
    get_comfort_statistics 90000 two_readings 1 7 = inr st /\
    min_score st = Some mn /\ average_score st = Some av /\ max_score st = Some mx /\
    mn <= av /\ av <= mx.
Proof.
  destruct (get_comfort_statistics 90000 two_readings 1 7) as [e|st] eqn:E.
  { vm_compute in E. discriminate E. }
  destruct (proj2 (X10_statistics_scores 90000 two_readings 1 7 st E))
    as (mn & av & mx & H).
  - pose proof E as E'. vm_compute in E'. injection E' as <-. cbn. lia.
  - exists st, mn, av, mx. split; [reflexivity|exact H].
Defined.

Lemma X11_status_distribution_witness :
  exists st,
    get_comfort_statistics 90000 two_readings 1 7 = inr st /\
    sum_list (status_distribution st).*2 = total_measurements st.
Proof.
  destruct (get_comfort_statistics 90000 two_readings 1 7) as [e|st] eqn:E.
  { vm_compute in E. discriminate E. }
  exists st. split; [reflexivity|].
  apply (X11_status_distribution 90000 two_readings 1 7 st E).
Defined.

Lemma X12_discomfort_percentage_witness :
  exists st,
    get_comfort_statistics 90000 two_readings 1 7 = inr st /\
    0 <= discomfort_percentage st <= 100.
Proof.
  destruct (get_comfort_statistics 90000 two_readings 1 7) as [e|st] eqn:E.
  { vm_compute in E. discriminate E. }
  exists st. split; [reflexivity|].
  apply (X12_discomfort_percentage 90000 two_readings 1 7 st E).
Defined.

Lemma X13_statistics_errors_witness :
  get_comfort_statistics 90000 two_readings 1 1000000 = inl StatsOverflowError /\
  exists st, get_comfort_statistics 90000 two_readings 1 (-3) = inr st /\
             total_measurements st = 0%nat /\ alert_count st = 0%nat.
Proof.
  split.
  - apply (proj1 (proj2 (X13_statistics_errors 90000 two_readings 1 1000000))); [lia|].
    unfold window_representable, MIN_DATETIME. lia.
  - destruct (proj2 (proj2 (X13_statistics_errors 90000 two_readings 1 (-3))))
      as (st & Hst & _ & Hneg).
    + lia.
    + unfold window_representable, MIN_DATETIME, MAX_DATETIME. lia.
    + exists st. split; [exact Hst|]. apply Hneg. lia.
Defined.

Lemma reachable_two_readings : reachable reject reject reject two_readings.
Proof.
  unfold two_readings. apply reachable_collect, reachable_collect, reachable_init.
Qed.

Lemma X14_statistics_of_reachable_store_witness :
  exists st v,
    get_comfort_statistics 90000 two_readings 1 7 = inr st /\
    average_score st = Some v /\ 0 <= v <= 100.
Proof.
  destruct (get_comfort_statistics 90000 two_readings 1 7) as [e|st] eqn:E.
  { vm_compute in E. discriminate E. }
  destruct (average_score st) as [v|] eqn:Ev.
  - exists st, v. split; [reflexivity|]. split; [exact Ev|].
    apply (proj1 (X14_statistics_of_reachable_store reject reject reject
                    90000 two_readings 1 7 st reachable_two_readings E)).
    right. left. exact Ev.
  - exfalso. pose proof E as E'. vm_compute in E'. injection E' as <-.
    discriminate Ev.
Defined.

(** ** Evolution: order of the aggregates, hours within days *)

Lemma get_comfort_evolution_inv now db salle pn rows :
  get_comfort_evolution now db salle pn = inr rows ->
  rows = evolution_row db salle pn (history_until now db salle) <$>
           periods_of pn (history_until now db salle).
Proof.
  intros H.
  assert (Hs : salle <> 0%Z).
  { intros ->. discriminate H. }
  rewrite (get_comfort_evolution_rows now db salle pn Hs) in H. by injection H.
Qed.

(** The aggregates of the row keyed [p]. *)
Lemma evolution_row_aggregates now db salle pn p c :
  p ∈ periods_of pn (history_until now db salle) ->
  records_in_bucket_until now db salle pn p <> [] /\
  row_min c (evolution_row db salle pn (history_until now db salle) p) =
    sql_min (column_value c <$> records_in_bucket_until now db salle pn p) /\
  row_max c (evolution_row db salle pn (history_until now db salle) p) =
    sql_max (column_value c <$> records_in_bucket_until now db salle pn p) /\
  row_avg c (evolution_row db salle pn (history_until now db salle) p) =
    sql_avg (column_value c <$> records_in_bucket_until now db salle pn p).
Proof.
  intros Hp.
  pose proof (periods_of_aligned _ _ _ Hp) as Hal.
  apply periods_of_elem in Hp as (i & Hi & Htr).
  split.
  - intros He. pose proof (bucket_until_elem now db salle pn i Hi) as Hin.
    rewrite Htr, He in Hin. by apply elem_of_nil in Hin.
  - rewrite row_min_evolution_row, row_max_evolution_row, row_avg_evolution_row.
    by rewrite group_of_bucket.
Qed.

(** X15.  In every row of the evolution and for each of the six columns,
    minimum, average and maximum are present and ordered: minimum <=
    average <= maximum.  When no record of the row's bucket is dated after
    the time of the query, the current value is present too and lies
    between the minimum and the maximum. *)
Theorem X15_row_order now db salle pn rows row c :
  get_comfort_evolution now db salle pn = inr rows ->
  row ∈ rows ->
  exists mn av mx,
    row_min c row = Some mn /\ row_avg c row = Some av /\ row_max c row = Some mx /\
    mn <= av /\ av <= mx /\
    (none_after now db salle pn (period row) ->
     exists cur, row_current c row = Some cur /\ mn <= cur /\ cur <= mx).
Proof.
  intros H Hrow. apply get_comfort_evolution_inv in H. subst rows.
  apply list_elem_of_fmap in Hrow as (p & -> & Hp).
  rewrite period_evolution_row.
  destruct (evolution_row_aggregates now db salle pn p c Hp) as (Hne & Emin & Emax & Eavg).
  assert (Hv : column_value c <$> records_in_bucket_until now db salle pn p <> []).
  { intros He. by apply fmap_nil_inv in He. }
  pose proof (sql_min_minimum _ Hv) as Hmn.
  pose proof (sql_max_maximum _ Hv) as Hmx.
  pose proof (sql_avg_average _ Hv) as Hav.
  destruct (min_avg_max_order _ _ _ _ Hmn Hav Hmx)
    as (mn & av & mx & E1 & E2 & E3 & Hle1 & Hle2).
  exists mn, av, mx. rewrite Emin, Emax, Eavg.
  split; [done|]. split; [done|]. split; [done|]. split; [done|]. split; [done|].
  intros Hna.
  destruct (head_order_by_timestamp_desc (records_in_bucket db salle pn p))
    as (r & Hhead & [Hin _]).
  { by rewrite (records_in_bucket_none_after now). }
  exists (column_value c r). rewrite row_current_evolution_row, Hhead.
  split; [done|].
  rewrite (records_in_bucket_none_after now) in Hin by done.
  destruct Hmn as (mn' & Emn & _ & Hlo). destruct Hmx as (mx' & Emx & _ & Hhi).
  assert (mn' = mn) by congruence. assert (mx' = mx) by congruence. subst mn' mx'.
  split; [apply Hlo|apply Hhi]; by apply list_elem_of_fmap_2.
Qed.

Lemma X15_row_order_witness :
  exists rows row mn av mx,
    get_comfort_evolution 90000 two_readings 1 "day" = inr rows /\
    row ∈ rows /\
    row_min col_score_global row = Some mn /\
    row_avg col_score_global row = Some av /\
    row_max col_score_global row = Some mx /\
    mn <= av /\ av <= mx.
Proof.
  destruct (get_comfort_evolution 90000 two_readings 1 "day") as [e|rows] eqn:E.
  { vm_compute in E. discriminate E. }
  assert (Hrow : exists row, row ∈ rows).
  { pose proof E as E'. vm_compute in E'. injection E' as <-. eexists. left. }
  destruct Hrow as [row Hrow].
  destruct (X15_row_order 90000 two_readings 1 "day" rows row col_score_global E Hrow)
    as (mn & av & mx & H1 & H2 & H3 & H4 & H5 & _).
  exists rows, row, mn, av, mx. done.
Defined.

Lemma trunc_hour_in_day t :
  (trunc_func "day" t ≤ trunc_func "hour" t)%Z /\
  (trunc_func "hour" t + 3600 ≤ trunc_func "day" t + 86400)%Z.
Proof.
  unfold trunc_func.
  change (period_delta "day") with 86400%Z. change (period_delta "hour") with 3600%Z.
  assert (Hm : (t mod 3600 = (t mod 86400) mod 3600)%Z).
  { symmetry. apply Z.mod_mod_divide. exists 24%Z. reflexivity. }
  pose proof (Z.mod_pos_bound t 86400 ltac:(lia)) as Hr.
  rewrite Hm. generalize dependent (t mod 86400)%Z. intros r _ Hr.
  pose proof (Z.mod_pos_bound r 3600 ltac:(lia)) as Hq.
  pose proof (Z.div_mod r 3600 ltac:(lia)) as Hd.
  assert (r / 3600 < 24)%Z by (apply Z.div_lt_upper_bound; lia).
  lia.
Qed.

(** X16.  The hourly view refines the daily view: every row of the
    evolution by hour lies within the interval of a row of the evolution
    by day, whose minimum is at most the hourly minimum and whose maximum
    is at least the hourly maximum, for each column. *)
Theorem X16_hours_within_days now db salle hrows drows hrow :
  get_comfort_evolution now db salle "hour" = inr hrows ->
  get_comfort_evolution now db salle "day" = inr drows ->
  hrow ∈ hrows ->
  exists drow,
    drow ∈ drows /\
    (period drow ≤ period hrow)%Z /\
    (period hrow + 3600 ≤ period drow + 86400)%Z /\
    forall c mnh mxh mnd mxd,
      row_min c hrow = Some mnh -> row_max c hrow = Some mxh ->
      row_min c drow = Some mnd -> row_max c drow = Some mxd ->
      mnd <= mnh /\ mxh <= mxd.
Proof.
  intros Hh Hd Hrow.
  apply get_comfort_evolution_inv in Hh, Hd. subst hrows drows.
  apply list_elem_of_fmap in Hrow as (k & -> & Hk).
  pose proof Hk as Hk'. apply periods_of_elem in Hk' as (i & Hi & Htr).
  set (d := trunc_func "day" (indice_timestamp i)).
  assert (Hdp : d ∈ periods_of "day" (history_until now db salle)).
  { apply periods_of_elem. eauto. }
  exists (evolution_row db salle "day" (history_until now db salle) d).
  split; [by apply list_elem_of_fmap_2|].
  rewrite !period_evolution_row.
  destruct (trunc_hour_in_day (indice_timestamp i)) as [Hlo Hhi].
  rewrite Htr in Hlo, Hhi. fold d in Hlo, Hhi.
  split; [done|]. split; [done|].
  intros c mnh mxh mnd mxd Hmnh Hmxh Hmnd Hmxd.
  destruct (evolution_row_aggregates now db salle "hour" k c Hk) as (Hneh & Eminh & Emaxh & _).
  destruct (evolution_row_aggregates now db salle "day" d c Hdp) as (Hned & Emind & Emaxd & _).
  assert (Hsub : forall x,
    x ∈ column_value c <$> records_in_bucket_until now db salle "hour" k ->
    x ∈ column_value c <$> records_in_bucket_until now db salle "day" d).
  { intros x Hx. apply list_elem_of_fmap in Hx as (j & -> & Hj).
    apply list_elem_of_fmap_2.
    apply list_elem_of_filter in Hj as [[[Hj1 Hj2] Hjn] Hjr].
    apply list_elem_of_filter. split; [|done]. split; [|done].
    unfold in_bucket.
    change (period_delta "hour") with 3600%Z in Hj2.
    change (period_delta "day") with 86400%Z. lia. }
  assert (Hvh : column_value c <$> records_in_bucket_until now db salle "hour" k <> []).
  { intros He. by apply fmap_nil_inv in He. }
  assert (Hvd : column_value c <$> records_in_bucket_until now db salle "day" d <> []).
  { intros He. by apply fmap_nil_inv in He. }
  destruct (sql_min_minimum _ Hvh) as (a1 & E1 & Hin1 & _).
  destruct (sql_max_maximum _ Hvh) as (a2 & E2 & Hin2 & _).
  destruct (sql_min_minimum _ Hvd) as (b1 & F1 & _ & Hb1).
  destruct (sql_max_maximum _ Hvd) as (b2 & F2 & _ & Hb2).
  rewrite Eminh, E1 in Hmnh. rewrite Emaxh, E2 in Hmxh.
  rewrite Emind, F1 in Hmnd. rewrite Emaxd, F2 in Hmxd.
  injection Hmnh as <-. injection Hmxh as <-.
  injection Hmnd as <-. injection Hmxd as <-.
  split; [apply Hb1|apply Hb2]; by apply Hsub.
Qed.

Lemma X16_hours_within_days_witness :
  exists hrows drows hrow drow,
    get_comfort_evolution 90000 two_readings 1 "hour" = inr hrows /\
    get_comfort_evolution 90000 two_readings 1 "day" = inr drows /\
    hrow ∈ hrows /\ drow ∈ drows /\
    (period drow ≤ period hrow)%Z /\
    (period hrow + 3600 ≤ period drow + 86400)%Z.
Proof.
  destruct (get_comfort_evolution 90000 two_readings 1 "hour") as [e|hrows] eqn:Eh.
  { vm_compute in Eh. discriminate Eh. }
  destruct (get_comfort_evolution 90000 two_readings 1 "day") as [e|drows] eqn:Ed.
  { vm_compute in Ed. discriminate Ed. }
  assert (Hrow : exists row, row ∈ hrows).
  { pose proof Eh as E'. vm_compute in E'. injection E' as <-. eexists. left. }
  destruct Hrow as [hrow Hrow].
  destruct (X16_hours_within_days 90000 two_readings 1 hrows drows hrow Eh Ed Hrow)
    as (drow & H1 & H2 & H3 & _).
  exists hrows, drows, hrow, drow. done.
Defined.

(** ** Ingestion and the read side together *)

Lemma head_filter_app_old (ms : list Mesure) (m : Mesure) (k : Z) :
  k ∈ mesure_id <$> ms ->
  head (filter (λ x, mesure_id x = k) (ms ++ [m])) =
  head (filter (λ x, mesure_id x = k) ms).
Proof.
  intros Hk. rewrite filter_app.
  apply list_elem_of_fmap in Hk as (m0 & -> & Hm0).
  assert (Hin : m0 ∈ filter (λ x, mesure_id x = mesure_id m0) ms)
    by (apply list_elem_of_filter; done).
  destruct (filter (λ x, mesure_id x = mesure_id m0) ms); [|done].
  by apply elem_of_nil in Hin.
Qed.

Lemma head_filter_app_new (ms : list Mesure) (m : Mesure) :
  mesure_id m ∉ mesure_id <$> ms ->
  head (filter (λ x, mesure_id x = mesure_id m) (ms ++ [m])) = Some m.
Proof.
  intros Hk. rewrite filter_app, filter_all_false.
  - cbn [app]. by rewrite filter_cons_True.
  - intros x Hx Hid. apply Hk. rewrite <- Hid. by apply list_elem_of_fmap_2.
Qed.

(** The history of a room after a committed transaction: the new index is
    appended to the history of the room of its measurement, and to no
    other. *)
Lemma indices_of_salle_after faults now f db r db' salle :
  db_consistent db ->
  collect_body faults now f db = (inr r, db') ->
  indices_of_salle db' salle =
  indices_of_salle db salle ++
    (if decide (mesure_salle (resp_mesure r) = salle) then [resp_indice_confort r] else []).
Proof.
  intros Hc Hrun.
  pose proof (collect_body_outcome faults now f db) as Hout. rewrite Hrun in Hout.
  destruct Hout as (Hm & Hi & Hnot & _ & _ & Hms & His & _).
  unfold indices_of_salle. rewrite His, filter_app. f_equal.
  - apply filter_ext_elem. intros i Hin. unfold salle_of_indice.
    rewrite Hms, head_filter_app_old; [done|]. by apply (cons_indice_fk db Hc).
  - rewrite filter_cons, filter_nil. unfold salle_of_indice.
    assert (Hid : indice_mesure (resp_indice_confort r) = mesure_id (resp_mesure r))
      by (rewrite Hi; reflexivity).
    rewrite Hid, Hms, head_filter_app_new.
    + cbn [fmap option_fmap option_map].
      destruct (decide (Some (mesure_salle (resp_mesure r)) = Some salle)) as [E|E],
               (decide (mesure_salle (resp_mesure r) = salle)) as [E'|E']; try done.
      * by injection E.
      * by rewrite E' in E.
    + rewrite Hm. cbn. apply fresh_id_fresh.
Qed.

Lemma alertes_of_salle_after faults now f db r db' salle lo hi :
  db_consistent db ->
  collect_body faults now f db = (inr r, db') ->
  mesure_salle (resp_mesure r) <> salle ->
  filter (λ a, salle_of_alerte db' a = Some salle /\
               (lo ≤ alerte_timestamp a)%Z /\ (alerte_timestamp a ≤ hi)%Z) (alertes db') =
  filter (λ a, salle_of_alerte db a = Some salle /\
               (lo ≤ alerte_timestamp a)%Z /\ (alerte_timestamp a ≤ hi)%Z) (alertes db).
Proof.
  intros Hc Hrun Hne.
  pose proof (collect_body_outcome faults now f db) as Hout. rewrite Hrun in Hout.
  destruct Hout as (Hm & Hi & Hnot & HF & _ & Hms & _ & Has).
  rewrite Has, filter_app.
  rewrite (filter_all_false _ (resp_alertes r)).
  - rewrite app_nil_r. apply filter_ext_elem. intros a Hin. unfold salle_of_alerte.
    rewrite Hms, head_filter_app_old; [done|]. by apply (cons_alerte_fk db Hc).
  - intros a Hin [Hs _]. unfold salle_of_alerte in Hs.
    rewrite (persists_mesure _ _ _ _ HF a Hin), Hms, head_filter_app_new in Hs.
    + cbn in Hs. injection Hs as Hs. done.
    + rewrite Hm. cbn. apply fresh_id_fresh.
Qed.

(** The evolution of a room reads the store through the room's history
    only. *)
Lemma get_comfort_evolution_ext now db db' salle pn :
  indices_of_salle db' salle = indices_of_salle db salle ->
  get_comfort_evolution now db' salle pn = get_comfort_evolution now db salle pn.
Proof.
  intros H. unfold get_comfort_evolution, evolution_row, current_sub.
  rewrite H. reflexivity.
Qed.

Lemma get_comfort_statistics_ext now db db' salle days :
  indices_of_salle db' salle = indices_of_salle db salle ->
  (forall lo hi,
     filter (λ a, salle_of_alerte db' a = Some salle /\
                  (lo ≤ alerte_timestamp a)%Z /\ (alerte_timestamp a ≤ hi)%Z) (alertes db') =
     filter (λ a, salle_of_alerte db a = Some salle /\
                  (lo ≤ alerte_timestamp a)%Z /\ (alerte_timestamp a ≤ hi)%Z) (alertes db)) ->
  get_comfort_statistics now db' salle days = get_comfort_statistics now db salle days.
Proof.
  intros H Ha. unfold get_comfort_statistics, stats_window.
  destruct (salle =? 0)%Z; [done|].
  destruct (timedelta_days days) as [delta|]; [|done].
  destruct (datetime_sub now delta) as [start|]; [|done].
  cbv zeta. rewrite H, Ha. reflexivity.
Qed.

Section IngestionAndReads.

Variable coerce_pk : PyVal -> option Z.
Variable coerce_float : PyVal -> option Q.
Variable coerce_datetime : PyVal -> option Z.

Local Abbreviation validate' := (validate coerce_pk coerce_float coerce_datetime).
Local Abbreviation collect' := (collect_measurement coerce_pk coerce_float coerce_datetime).
Local Abbreviation reachable' := (reachable coerce_pk coerce_float coerce_datetime).

Lemma collect_measurement_cases faults now data db :
  (exists e, collect' faults now data db = (inl e, db)) \/
  (exists f r db', collect_body faults now f db = (inr r, db') /\
                   collect' faults now data db = (inr r, db')).
Proof.
  unfold collect_measurement.
  destruct (validate' now data db) as [e|f]; [left; eauto|].
  unfold atomic.
  destruct (collect_body faults now f db) as [[e|r] db'] eqn:Hrun; [left; eauto|].
  right. eauto 6.
Qed.

(** X17.  What is ingested can be read back: after a successful call on a
    reachable store, the evolution of the measurement's room, asked at or
    after the measurement's timestamp, has a row keyed by the truncation
    of that timestamp, and for each column the stored index lies between
    that row's minimum and maximum. *)
Theorem X17_ingested_reading_in_evolution faults now data db r db' now' pn :
  reachable' db ->
  collect' faults now data db = (inr r, db') ->
  mesure_salle (resp_mesure r) <> 0%Z ->
  (mesure_timestamp (resp_mesure r) ≤ now')%Z ->
  exists rows row,
    get_comfort_evolution now' db' (mesure_salle (resp_mesure r)) pn = inr rows /\
    row ∈ rows /\
    period row = trunc_func pn (mesure_timestamp (resp_mesure r)) /\
    forall c, exists mn mx,
      row_min c row = Some mn /\ row_max c row = Some mx /\
      mn <= column_value c (resp_indice_confort r) /\
      column_value c (resp_indice_confort r) <= mx.
Proof.
  intros Hr Hrun Hs Hts.
  destruct (collect_measurement_cases faults now data db) as [[e He]|(f & r0 & db0 & Hb & He)];
    rewrite He in Hrun; [discriminate Hrun|].
  injection Hrun as -> ->.
  apply reachable_consistent in Hr.
  pose proof (indices_of_salle_after faults now f db r db' (mesure_salle (resp_mesure r)) Hr Hb)
    as Hhist.
  rewrite decide_True in Hhist by done.
  pose proof (collect_body_outcome faults now f db) as Hout. rewrite Hb in Hout.
  destruct Hout as (_ & Hi & _).
  set (i := resp_indice_confort r) in *. set (salle := mesure_salle (resp_mesure r)) in *.
  assert (Hit : indice_timestamp i = mesure_timestamp (resp_mesure r)).
  { rewrite Hi. reflexivity. }
  assert (Hin : i ∈ history_until now' db' salle).
  { apply list_elem_of_filter. split; [lia|].
    rewrite Hhist. apply elem_of_app. right. left. }
  set (p := trunc_func pn (indice_timestamp i)).
  assert (Hp : p ∈ periods_of pn (history_until now' db' salle)).
  { apply periods_of_elem. eauto. }
  eexists _, (evolution_row db' salle pn (history_until now' db' salle) p).
  split; [by apply get_comfort_evolution_rows|].
  split; [by apply list_elem_of_fmap_2|].
  rewrite period_evolution_row. split; [unfold p; by rewrite Hit|].
  intros c.
  destruct (evolution_row_aggregates now' db' salle pn p c Hp) as (Hne & Emin & Emax & _).
  assert (Hv : column_value c <$> records_in_bucket_until now' db' salle pn p <> []).
  { intros He'. by apply fmap_nil_inv in He'. }
  destruct (sql_min_minimum _ Hv) as (mn & E1 & _ & Hlo).
  destruct (sql_max_maximum _ Hv) as (mx & E2 & _ & Hhi).
  exists mn, mx. rewrite Emin, Emax. split; [done|]. split; [done|].
  assert (Hb' : column_value c i ∈
                column_value c <$> records_in_bucket_until now' db' salle pn p).
  { apply list_elem_of_fmap_2. by apply bucket_until_elem. }
  split; [by apply Hlo|by apply Hhi].
Qed.

(** X18.  Rooms do not interfere: whatever a call does, the evolution and
    the statistics of every room other than the one the measurement was
    stored for are the same after the call as before, on a reachable
    store. *)
Theorem X18_other_rooms_unchanged faults now data db res db' salle now' :
  reachable' db ->
  collect' faults now data db = (res, db') ->
  (forall r, res = inr r -> mesure_salle (resp_mesure r) <> salle) ->
  (forall pn, get_comfort_evolution now' db' salle pn =
              get_comfort_evolution now' db salle pn) /\
  (forall days, get_comfort_statistics now' db' salle days =
                get_comfort_statistics now' db salle days).
Proof.
  intros Hr Hrun Hother.
  destruct (collect_measurement_cases faults now data db) as [[e He]|(f & r & db0 & Hb & He)];
    rewrite He in Hrun; injection Hrun as <- <-; [done|].
  apply reachable_consistent in Hr.
  specialize (Hother r eq_refl).
  pose proof (indices_of_salle_after faults now f db r db0 salle Hr Hb) as Hhist.
  rewrite decide_False, app_nil_r in Hhist by done.
  split.
  - intros pn. by apply get_comfort_evolution_ext.
  - intros days. apply get_comfort_statistics_ext; [done|].
    intros lo hi. by eapply alertes_of_salle_after.
Qed.

End IngestionAndReads.

Lemma X17_ingested_reading_in_evolution_witness :
  exists rows row,
    get_comfort_evolution 5000 after_one_reading 1 "hour" = inr rows /\
    row ∈ rows /\ period row = 0%Z.
Proof.
  destruct (collect_measurement reject reject reject no_fault 1000
              (request None None 30 50 500 55 400) one_room) as [res db'] eqn:E.
  assert (Hdb : db' = after_one_reading).
  { unfold after_one_reading. by rewrite E. }
  destruct res as [e|r]; [vm_compute in E; discriminate E|].
  assert (Hm : mesure_salle (resp_mesure r) = 1%Z /\
               mesure_timestamp (resp_mesure r) = 1000%Z).
  { pose proof E as E'. vm_compute in E'. injection E' as <- _. done. }
  destruct Hm as [Hs Ht].
  destruct (X17_ingested_reading_in_evolution reject reject reject no_fault 1000
              (request None None 30 50 500 55 400) one_room r db' 5000 "hour")
    as (rows & row & H1 & H2 & H3 & _).
  - apply reachable_init.
  - exact E.
  - rewrite Hs. lia.
  - rewrite Ht. lia.
  - exists rows, row. rewrite Hs, Hdb in H1. rewrite Ht in H3.
    split; [exact H1|]. split; [exact H2|]. rewrite H3. reflexivity.
Defined.

Lemma X18_other_rooms_unchanged_witness :
  get_comfort_evolution 5000 after_one_reading 2 "day" =
  get_comfort_evolution 5000 one_room 2 "day".
Proof.
  destruct (collect_measurement reject reject reject no_fault 1000
              (request None None 30 50 500 55 400) one_room) as [res db'] eqn:E.
  assert (Hdb : db' = after_one_reading).
  { unfold after_one_reading. by rewrite E. }
  rewrite <- Hdb.
  apply (X18_other_rooms_unchanged reject reject reject no_fault 1000
           (request None None 30 50 500 55 400) one_room res db' 2 5000).
  - apply reachable_init.
  - exact E.
  - intros r ->. vm_compute in E. injection E as <- _. cbn. lia.
Defined.
